(** * CAG_Restaurant: the retrieval-augmented query pipeline

    A shallow embedding of [cag_system.py], [cag_system_fast.py] and the
    request model of [api.py], followed by the properties of the chunker,
    the document loader, the index store, the retriever and the two
    answer paths.

    Python values are modelled as follows.
    - [str] is a list of characters ([list ascii]); [len], slicing and
      concatenation are the list operations.
    - [int] is [Z] (unbounded, as in Python).
    - A [dict] with string keys is a [gmap str pyval].
    - A call that can raise returns an [outcome]; a [while] loop is run
      with fuel and reports [Running] when the fuel is used up before the
      loop condition turned false. *)

From Stdlib Require Import ZArith Lia List Ascii String QArith.
From Stdlib Require Import DecimalString DecimalNat DecimalZ Permutation.
From stdpp Require Import base option list gmap strings sorting.

Local Open Scope Z_scope.

(** ** Python values *)

Abbreviation str := (list ascii).

(** A string literal of the source. *)
Definition lit (s : string) : str := list_ascii_of_string s.

Arguments lit : simpl never.

(** [len(s)] *)
Definition len {A} (s : list A) : Z := Z.of_nat (length s).

(** Values stored in dictionaries: the loader stores a [str] under
    ["source"] and an [int] under ["chunk_index"]. *)
Inductive pyval :=
| VStr (s : str)
| VInt (z : Z).

Global Instance pyval_eq_dec : EqDecision pyval.
Proof. solve_decision. Defined.

(** [str(j)] for an int. *)
Definition str_of_nat (j : nat) : str :=
  lit (NilEmpty.string_of_uint (Nat.to_uint j)).

Definition str_of_Z (z : Z) : str :=
  lit (NilEmpty.string_of_int (Z.to_int z)).

(** What an f-string writes for [{v}]. *)
Definition format_value (v : pyval) : str :=
  match v with
  | VStr s => s
  | VInt z => str_of_Z z
  end.

(** ** Outcomes of a call *)

Inductive exn :=
| AttributeError
| TypeError
| KeyError
| IndexError
| ValidationError
| ServiceError (msg : str)
| OSError (msg : str).

Inductive outcome (A : Type) :=
| Ok (a : A)
| Raise (e : exn)
| Running.

Arguments Ok {A} a.
Arguments Raise {A} e.
Arguments Running {A}.

Global Instance outcome_bind : MBind outcome := fun A B f m =>
  match m with
  | Ok a => f a
  | Raise e => Raise e
  | Running => Running
  end.

(** Attribute access or subscript on a value that may be [None]. *)
Definition not_none {A} (e : exn) (o : option A) : outcome A :=
  match o with
  | Some a => Ok a
  | None => Raise e
  end.

(** A [for] loop whose body can raise. *)
Fixpoint for_each {A S} (body : S -> A -> outcome S) (xs : list A) (s : S)
  : outcome S :=
  match xs with
  | [] => Ok s
  | x :: xs' => s' ← body s x; for_each body xs' s'
  end.

(** [while cond(s): s = body(s)], at most [fuel] tests of the condition. *)
Fixpoint while_loop {S} (fuel : nat) (cond : S -> bool) (body : S -> S) (s : S)
  : outcome S :=
  match fuel with
  | O => Running
  | S fuel' =>
      if cond s then while_loop fuel' cond body (body s) else Ok s
  end.

(** [enumerate(xs)] *)
Definition enumerate {A} (xs : list A) : list (nat * A) :=
  imap (fun i x => (i, x)) xs.

(** ** Slicing *)

(** How Python brings a slice bound into [0 .. n]: a negative bound counts
    from the end. *)
Definition clamp (n i : Z) : Z :=
  if i <? 0 then Z.max (i + n) 0 else Z.min i n.

(** [text[start:end]] *)
Definition slice {A} (text : list A) (start end_ : Z) : list A :=
  let lo := clamp (len text) start in
  let hi := clamp (len text) end_ in
  take (Z.to_nat (hi - lo)) (drop (Z.to_nat lo) text).

(** [s.endswith(suffix)] *)
Definition endswith (s suffix : str) : bool :=
  bool_decide (suffix `suffix_of` s).

(** [sep.join(parts)] *)
Fixpoint join (sep : str) (parts : list str) : str :=
  match parts with
  | [] => []
  | [p] => p
  | p :: rest => p ++ sep ++ join sep rest
  end.

Definition nl : str := [ascii_of_nat 10].

(** The lines of a triple-quoted literal. *)
Definition lines (ls : list str) : str := join nl ls.

(** [xs[i]] on a list. *)
Definition list_getitem {A} (xs : list A) (i : nat) : outcome A :=
  not_none IndexError (xs !! i).

(** [d[key]] where [d] may be [None]. *)
Definition dict_getitem (d : option (gmap str pyval)) (key : str) : outcome pyval :=
  d' ← not_none TypeError d;
  not_none KeyError (d' !! key).

(** [os.path.join(a, b)] on POSIX. *)
Definition os_path_join (a b : str) : str :=
  if bool_decide (lit "/" `prefix_of` b) then b
  else if bool_decide (a = []) || endswith a (lit "/") then a ++ b
  else a ++ lit "/" ++ b.

(** ** Records shared by the two systems *)

(** The three lists built by the loader. *)
Record batch := {
  documents : list str;
  metadatas : list (gmap str pyval);
  ids : list str
}.

Definition empty_batch : batch :=
  {| documents := []; metadatas := []; ids := [] |}.

(** The (chunk text, metadata, id) triples of a batch. *)
Definition triples (b : batch) : list (str * gmap str pyval * str) :=
  zip (zip (documents b) (metadatas b)) (ids b).

(** The loop variables [chunks] and [start] of [_split_text]. *)
Record split_state := { chunks : list str; start : Z }.

(** One element of the list returned by [retrieve_context]. *)
Record context_entry := { content : str; source : pyval }.

(** The dict returned by [process_query]. *)
Record response := {
  query : str;
  initial_context : list context_entry;
  augmented_response : str
}.

(** What one stage of the crew hands to the model. *)
Inductive Tool :=
| FileReadTool
| DirectoryReadTool (directory : str).

Record Agent := {
  role : str;
  goal : str;
  backstory : str;
  verbose : bool;
  allow_delegation : bool;
  tools : list Tool
}.

Record StageInput := {
  stage_agent : Agent;
  stage_description : str;
  stage_expected_output : str;
  stage_context : list str
}.

(** The arguments of [client.chat.completions.create]. *)
Record ChatRequest := {
  model : str;
  messages : list (str * str);
  temperature : Q;
  max_tokens : Z
}.

(** ** The collaborators

    The file system, the markup renderer, the embedding function and the
    two generative back ends are outside the repository; the pipeline is
    stated for any of them. [listdir] and [read_file] describe a folder
    that can be listed and whose files can be read; the loader on a file
    system that can fail is in [Disk], further down. *)
Record Services (V : Type) := {
  listdir : str -> list str;
  read_file : str -> str;
  render : str -> str;
  embed : str -> outcome V;
  distance : V -> V -> Z;
  agent_execute : StageInput -> outcome str;
  chat_completion : ChatRequest -> outcome str
}.

Arguments listdir {V} _ _.
Arguments read_file {V} _ _.
Arguments render {V} _ _.
Arguments embed {V} _ _.
Arguments distance {V} _ _ _.
Arguments agent_execute {V} _ _.
Arguments chat_completion {V} _ _.

(** ** The index store *)

Module Chroma.

Record entry (V : Type) := {
  entry_id : str;
  entry_document : str;
  entry_metadata : option (gmap str pyval);
  entry_embedding : V
}.

Arguments entry_id {V} _.
Arguments entry_document {V} _.
Arguments entry_metadata {V} _.
Arguments entry_embedding {V} _.

(** What [collection.query] returns, as far as the retriever reads it. *)
Record QueryResult := {
  res_documents : option (list (list str));
  res_metadatas : option (list (list (option (gmap str pyval))))
}.

Fixpoint insert_by {A} (key : A -> Z) (x : A) (l : list A) : list A :=
  match l with
  | [] => [x]
  | y :: l' => if key x <=? key y then x :: l else y :: insert_by key x l'
  end.

(** Stable sort, smallest key first. *)
Definition sort_by {A} (key : A -> Z) (l : list A) : list A :=
  foldr (insert_by key) [] l.

(** Modelled from the spec: the persistent collection of the vector-search
    service, a sequence of entries in insertion order. *)
Definition Collection (V : Type) : Type := list (entry V).

(** Modelled from the spec: [collection.count()]. *)
Definition count {V} (c : Collection V) : Z := len c.

(** Modelled from the spec: [embed(text)] for every text of a list; the first
    failure of the embedding service fails the whole call. *)
Definition embed_all {V} (svc : Services V) (texts : list str) : outcome (list V) :=
  for_each (fun vs t => v ← embed svc t; Ok (vs ++ [v])) texts [].

(** Modelled from the spec: [collection.add(documents, metadatas, ids)], the
    bulk insert of the triples with their computed embeddings. *)
Definition add {V} (svc : Services V) (c : Collection V)
    (documents : list str) (metadatas : list (gmap str pyval)) (ids : list str)
  : outcome (Collection V) :=
  embeddings ← embed_all svc documents;
  Ok (c ++ zip_with (fun '(i, d) '(m, v) =>
                       {| entry_id := i; entry_document := d;
                          entry_metadata := Some m; entry_embedding := v |})
                    (zip ids documents) (zip metadatas embeddings)).

(** Modelled from the spec: the [k] nearest stored entries, most similar
    first, ties in the store's order. *)
Definition nearest {V} (svc : Services V) (c : Collection V) (v : V) (k : nat)
  : list (entry V) :=
  take k (sort_by (fun e => distance svc v (entry_embedding e)) c).

(** Modelled from the spec: [collection.query(query_texts, n_results)], one
    row of results per query text. *)
Definition query {V} (svc : Services V) (c : Collection V)
    (query_texts : list str) (n_results : nat) : outcome QueryResult :=
  vs ← embed_all svc query_texts;
  let rows := map (fun v => nearest svc c v n_results) vs in
  Ok {| res_documents := Some (map (map entry_document) rows);
        res_metadatas := Some (map (map entry_metadata) rows) |}.

End Chroma.

(** ** The sequential crew *)

Module Crew.

(** A [Task] object; [context] holds references to other [Task] objects,
    a reference being the position of the object in the heap. *)
Record Task := {
  description : str;
  expected_output : str;
  agent : Agent;
  context : list nat
}.

Inductive Process := sequential.

Record t := {
  agents : list Agent;
  tasks : list nat;
  process : Process
}.

(** The calls made so far and the output recorded on each executed task. *)
Record run := {
  trace : list (StageInput * str);
  outputs : gmap nat str
}.

(** Modelled from the spec: the execution of one task. The agent receives
    the task and the outputs of the tasks named by its [context]. *)
Definition execute_task {V} (svc : Services V) (heap : list Task) (r : run)
    (ref : nat) : outcome run :=
  task ← not_none IndexError (heap !! ref);
  let input :=
    {| stage_agent := agent task;
       stage_description := description task;
       stage_expected_output := expected_output task;
       stage_context := omap (fun c => outputs r !! c) (context task) |} in
  out ← agent_execute svc input;
  Ok {| trace := trace r ++ [(input, out)];
        outputs := <[ref := out]> (outputs r) |}.

(** Modelled from the spec: [crew.kickoff()] with [Process.sequential], the
    tasks one after the other in the order of [tasks]. *)
Definition kickoff_run {V} (svc : Services V) (heap : list Task) (crew : t)
  : outcome run :=
  for_each (execute_task svc heap) (tasks crew)
           {| trace := []; outputs := ∅ |}.

(** The result of the crew is the output of its last task. *)
Definition kickoff {V} (svc : Services V) (heap : list Task) (crew : t)
  : outcome str :=
  r ← kickoff_run svc heap crew;
  Ok (default [] (snd <$> last (trace r))).

End Crew.

(** ** [cag_system.py] *)

Module CAGSystem.

(** The object: [self.data_folder] and [self.collection] ([None] until
    [setup_vectorstore] has run). *)
Record t (V : Type) := {
  data_folder : str;
  collection : option (Chroma.Collection V)
}.

Arguments data_folder {V} _.
Arguments collection {V} _.

(** [while start < text_length] *)
Definition split_cond (text : str) (st : split_state) : bool :=
  start st <? len text.

(** The body of the loop of [_split_text]. *)
Definition split_body (text : str) (chunk_size overlap : Z) (st : split_state)
  : split_state :=
  let end_ := start st + chunk_size in
  let chunk := slice text (start st) end_ in
  {| chunks := chunks st ++ [chunk]; start := end_ - overlap |}.

Definition split_init : split_state := {| chunks := []; start := 0 |}.

Definition _split_text (fuel : nat) (text : str) (chunk_size overlap : Z)
  : outcome (list str) :=
  st ← while_loop fuel (split_cond text) (split_body text chunk_size overlap)
         split_init;
  Ok (chunks st).

(** The body of [for j, chunk in enumerate(chunks)]. *)
Definition append_chunk (filename : str) (b : batch) (jc : nat * str) : batch :=
  let '(j, chunk) := jc in
  {| documents := documents b ++ [chunk];
     metadatas := metadatas b ++
       [ {[ lit "source" := VStr filename;
            lit "chunk_index" := VInt (Z.of_nat j) ]} ];
     ids := ids b ++ [filename ++ lit "_" ++ str_of_nat j] |}.

(** The body of [for i, filename in enumerate(os.listdir(...))]; the text
    has [len(text)] characters, so [len(text) + 1] tests of the loop
    condition are enough for [chunk_size=1000, overlap=200]. *)
Definition load_file {V} (svc : Services V) (folder : str) (b : batch)
    (ifn : nat * str) : outcome batch :=
  let '(i, filename) := ifn in
  if endswith filename (lit ".md") then
    let file_path := os_path_join folder filename in
    let content := read_file svc file_path in
    let text := render svc content in
    chunks ← _split_text (S (length text)) text 1000 200;
    Ok (foldl (append_chunk filename) b (enumerate chunks))
  else Ok b.

Definition load_documents {V} (svc : Services V) (folder : str)
    (listing : list str) : outcome batch :=
  for_each (load_file svc folder) (enumerate listing) empty_batch.

(** [setup_vectorstore]: [db] is the collection found on disk (empty when
    it is created by this call); the result is [self.collection]. *)
Definition setup_vectorstore {V} (svc : Services V) (folder : str)
    (db : Chroma.Collection V) : outcome (Chroma.Collection V) :=
  let collection := db in
  if 0 <? Chroma.count collection then Ok collection
  else
    b ← load_documents svc folder (listdir svc folder);
    if bool_decide (documents b ≠ []) then
      Chroma.add svc collection (documents b) (metadatas b) (ids b)
    else Ok collection.

Definition __init__ {V} (svc : Services V) (folder : str)
    (db : Chroma.Collection V) : outcome (t V) :=
  c ← setup_vectorstore svc folder db;
  Ok {| data_folder := folder; collection := Some c |}.

(** The value of the conditional expression that fills ['source']. *)
Definition source_of (results : Chroma.QueryResult) (i : nat) : outcome pyval :=
  match Chroma.res_metadatas results with
  | Some (row :: _) =>
      m ← list_getitem row i;
      dict_getitem m (lit "source")
  | _ => Ok (VStr (lit "Unknown"))
  end.

Definition retrieve_context {V} (svc : Services V) (self : t V) (query : str)
    (k : nat) : outcome (list context_entry) :=
  c ← not_none AttributeError (collection self);
  results ← Chroma.query svc c [query] k;
  match Chroma.res_documents results with
  | Some ((_ :: _) as docs0 :: _) =>
      for_each (fun contexts '(i, doc) =>
                  src ← source_of results i;
                  Ok (contexts ++ [ {| content := doc; source := src |} ]))
               (enumerate docs0) []
  | _ => Ok []
  end.

(** The context handed to the model: one block per retrieved chunk. *)
Definition format_context (initial_context : list context_entry) : str :=
  join (nl ++ nl)
       (map (fun ctx => lit "From " ++ format_value (source ctx) ++ lit ":"
                        ++ nl ++ content ctx)
            initial_context).

Definition context_analyst {V} (self : t V) : Agent :=
  {| role := lit "Context Analyst";
     goal := lit "Analyze and extract relevant context from the Bella Terra menu knowledge base";
     backstory := lines
       [ lit "You are an expert at understanding and analyzing restaurant ";
         lit "            information, menus, and business data. You excel at finding relevant ";
         lit "            information and understanding relationships between different pieces of data.";
         lit "            You work with the Bella Terra restaurant's menu data." ];
     verbose := true;
     allow_delegation := false;
     tools := [FileReadTool; DirectoryReadTool (data_folder self)] |}.

Definition context_augmenter : Agent :=
  {| role := lit "Context Augmenter";
     goal := lit "Enhance and expand context with additional insights about menu items and relationships";
     backstory := lines
       [ lit "You specialize in enriching context by identifying patterns, ";
         lit "            relationships, and implicit information in restaurant menus. You can infer ";
         lit "            additional context from existing data and make intelligent connections between";
         lit "            dishes, ingredients, prices, and categories." ];
     verbose := true;
     allow_delegation := false;
     tools := [] |}.

Definition response_generator : Agent :=
  {| role := lit "Response Generator";
     goal := lit "Generate comprehensive responses about Bella Terra using augmented context";
     backstory := lines
       [ lit "You are a master at crafting detailed, accurate, and helpful ";
         lit "            responses about restaurant menus and offerings. You use all available context ";
         lit "            to provide the most relevant and complete answers possible about Bella Terra." ];
     verbose := true;
     allow_delegation := false;
     tools := [] |}.

(** Task 1 of [augment_context]. *)
Definition context_analysis_task {V} (self : t V) (query context_str : str)
  : Crew.Task :=
  {| Crew.description := lines
       [ lit "Analyze the following context pieces from Bella Terra's menus for the query: '"
           ++ query ++ lit "'";
         lit "            ";
         lit "            Context pieces:";
         lit "            " ++ context_str;
         lit "            ";
         lit "            Identify key information, relationships between menu items, price patterns, ";
         lit "            and any gaps in the context. Focus on understanding the restaurant's offerings." ];
     Crew.expected_output :=
       lit "A detailed analysis of the menu context with key insights about dishes, prices, and categories";
     Crew.agent := context_analyst self;
     Crew.context := [] |}.

(** Task 2; [analysis] is the reference to task 1. *)
Definition augmentation_task (analysis : nat) : Crew.Task :=
  {| Crew.description := lines
       [ lit "Based on the context analysis, augment the information by:";
         lit "            1. Identifying implicit relationships between menu items, prices, and categories";
         lit "            2. Inferring additional relevant details about ingredients or preparation methods";
         lit "            3. Suggesting related menu items or pairings that might be helpful";
         lit "            4. Highlighting any special patterns, pricing tiers, or menu groupings";
         lit "            5. Making connections between different menu sections (pizza, pasta, wine, etc.)" ];
     Crew.expected_output :=
       lit "Enhanced context with additional insights about Bella Terra's offerings";
     Crew.agent := context_augmenter;
     Crew.context := [analysis] |}.

(** Task 3; [analysis] and [augmentation] are the references to tasks 1
    and 2. *)
Definition generation_task (query : str) (analysis augmentation : nat)
  : Crew.Task :=
  {| Crew.description := lines
       [ lit "Using all the analyzed and augmented context about Bella Terra, ";
         lit "            generate a comprehensive response to the query: '"
           ++ query ++ lit "'";
         lit "            ";
         lit "            Ensure the response is:";
         lit "            - Accurate to the source menu data";
         lit "            - Enhanced with the augmented insights about relationships and patterns";
         lit "            - Well-structured and easy to understand";
         lit "            - Complete with all relevant details including prices where applicable";
         lit "            - Helpful for someone trying to understand Bella Terra's offerings" ];
     Crew.expected_output :=
       lit "A comprehensive, friendly response about Bella Terra's menu offerings";
     Crew.agent := response_generator;
     Crew.context := [analysis; augmentation] |}.

(** The three [Task] objects of [augment_context], in allocation order. *)
Definition augment_heap {V} (self : t V) (query : str)
    (initial_context : list context_entry) : list Crew.Task :=
  let context_str := format_context initial_context in
  [ context_analysis_task self query context_str;
    augmentation_task 0%nat;
    generation_task query 0%nat 1%nat ].

Definition augment_crew {V} (self : t V) : Crew.t :=
  {| Crew.agents := [context_analyst self; context_augmenter; response_generator];
     Crew.tasks := [0%nat; 1%nat; 2%nat];
     Crew.process := Crew.sequential |}.

Definition augment_context {V} (svc : Services V) (self : t V) (query : str)
    (initial_context : list context_entry) : outcome str :=
  Crew.kickoff svc (augment_heap self query initial_context) (augment_crew self).

Definition process_query {V} (svc : Services V) (self : t V) (query : str)
  : outcome response :=
  initial_context ← retrieve_context svc self query 5;
  augmented_response ← augment_context svc self query initial_context;
  Ok {| query := query;
        initial_context := initial_context;
        augmented_response := augmented_response |}.

End CAGSystem.

(** ** [cag_system_fast.py] *)

Module CAGSystemFast.

(** The object: [self.data_folder] and [self.collection] ([None] until
    [setup_vectorstore] has run). *)
Record t (V : Type) := {
  data_folder : str;
  collection : option (Chroma.Collection V)
}.

Arguments data_folder {V} _.
Arguments collection {V} _.

(** [while start < text_length] *)
Definition split_cond (text : str) (st : split_state) : bool :=
  start st <? len text.

(** The body of the loop of [_split_text]. *)
Definition split_body (text : str) (chunk_size overlap : Z) (st : split_state)
  : split_state :=
  let end_ := start st + chunk_size in
  let chunk := slice text (start st) end_ in
  {| chunks := chunks st ++ [chunk]; start := end_ - overlap |}.

Definition split_init : split_state := {| chunks := []; start := 0 |}.

Definition _split_text (fuel : nat) (text : str) (chunk_size overlap : Z)
  : outcome (list str) :=
  st ← while_loop fuel (split_cond text) (split_body text chunk_size overlap)
         split_init;
  Ok (chunks st).

(** The body of [for j, chunk in enumerate(chunks)]. *)
Definition append_chunk (filename : str) (b : batch) (jc : nat * str) : batch :=
  let '(j, chunk) := jc in
  {| documents := documents b ++ [chunk];
     metadatas := metadatas b ++
       [ {[ lit "source" := VStr filename;
            lit "chunk_index" := VInt (Z.of_nat j) ]} ];
     ids := ids b ++ [filename ++ lit "_" ++ str_of_nat j] |}.

(** The body of [for i, filename in enumerate(os.listdir(...))]; the text
    has [len(text)] characters, so [len(text) + 1] tests of the loop
    condition are enough for [chunk_size=1000, overlap=200]. *)
Definition load_file {V} (svc : Services V) (folder : str) (b : batch)
    (ifn : nat * str) : outcome batch :=
  let '(i, filename) := ifn in
  if endswith filename (lit ".md") then
    let file_path := os_path_join folder filename in
    let content := read_file svc file_path in
    let text := render svc content in
    chunks ← _split_text (S (length text)) text 1000 200;
    Ok (foldl (append_chunk filename) b (enumerate chunks))
  else Ok b.

Definition load_documents {V} (svc : Services V) (folder : str)
    (listing : list str) : outcome batch :=
  for_each (load_file svc folder) (enumerate listing) empty_batch.

(** [setup_vectorstore]: [db] is the collection found on disk (empty when
    it is created by this call); the result is [self.collection]. *)
Definition setup_vectorstore {V} (svc : Services V) (folder : str)
    (db : Chroma.Collection V) : outcome (Chroma.Collection V) :=
  let collection := db in
  if 0 <? Chroma.count collection then Ok collection
  else
    b ← load_documents svc folder (listdir svc folder);
    if bool_decide (documents b ≠ []) then
      Chroma.add svc collection (documents b) (metadatas b) (ids b)
    else Ok collection.

Definition __init__ {V} (svc : Services V) (folder : str)
    (db : Chroma.Collection V) : outcome (t V) :=
  c ← setup_vectorstore svc folder db;
  Ok {| data_folder := folder; collection := Some c |}.

(** The value of the conditional expression that fills ['source']. *)
Definition source_of (results : Chroma.QueryResult) (i : nat) : outcome pyval :=
  match Chroma.res_metadatas results with
  | Some (row :: _) =>
      m ← list_getitem row i;
      dict_getitem m (lit "source")
  | _ => Ok (VStr (lit "Unknown"))
  end.

Definition retrieve_context {V} (svc : Services V) (self : t V) (query : str)
    (k : nat) : outcome (list context_entry) :=
  c ← not_none AttributeError (collection self);
  results ← Chroma.query svc c [query] k;
  match Chroma.res_documents results with
  | Some ((_ :: _) as docs0 :: _) =>
      for_each (fun contexts '(i, doc) =>
                  src ← source_of results i;
                  Ok (contexts ++ [ {| content := doc; source := src |} ]))
               (enumerate docs0) []
  | _ => Ok []
  end.

(** The context handed to the model: one block per retrieved chunk. *)
Definition format_context (initial_context : list context_entry) : str :=
  join (nl ++ nl)
       (map (fun ctx => lit "From " ++ format_value (source ctx) ++ lit ":"
                        ++ nl ++ content ctx)
            initial_context).

Definition prompt (query context_str : str) : str :=
  lines
    [ lit "You are an AI assistant for Bella Terra restaurant. Using the following context from the restaurant's menus, answer the customer's question.";
      lit "";
      lit "Context:";
      context_str;
      lit "";
      lit "Customer Question: " ++ query;
      lit "";
      lit "Provide a helpful, accurate response based on the menu information. If prices are mentioned, include them. Be friendly and informative." ].

Definition process_query {V} (svc : Services V) (self : t V) (query : str)
  : outcome response :=
  initial_context ← retrieve_context svc self query 5;
  let context_str := format_context initial_context in
  answer ← chat_completion svc
    {| model := lit "gpt-4o-mini";
       messages :=
         [ (lit "system", lit "You are a helpful restaurant assistant.");
           (lit "user", prompt query context_str) ];
       temperature := (7 # 10)%Q;
       max_tokens := 500 |};
  Ok {| query := query;
        initial_context := initial_context;
        augmented_response := answer |}.

End CAGSystemFast.

(** ** [api.py]: the request model and the [/query] route *)

Module Api.

Record QueryRequest := {
  request_query : str;
  session_id : option str
}.

(** [query: str = Field(..., min_length=1, max_length=500)] *)
Definition validate (body_query : str) (sid : option str) : outcome QueryRequest :=
  if (1 <=? len body_query) && (len body_query <=? 500) then
    Ok {| request_query := body_query; session_id := sid |}
  else Raise ValidationError.

Inductive reply :=
| Success (answer : str)
| HTTPException (status_code : Z).

(** [POST /query]: [cag_system] is the global instance, [openai_api_key]
    the value of the environment variable. A body that fails validation
    is answered with status 422 before the route is entered. *)
Definition process_query {V} (svc : Services V)
    (cag_system : option (CAGSystem.t V)) (openai_api_key : option str)
    (body_query : str) (sid : option str) : reply :=
  match validate body_query sid with
  | Ok request =>
      match cag_system with
      | None => HTTPException 503
      | Some cag =>
          match openai_api_key with
          | None | Some [] => HTTPException 500
          | Some _ =>
              match CAGSystem.process_query svc cag (request_query request) with
              | Ok result => Success (augmented_response result)
              | _ => HTTPException 500
              end
          end
      end
  | _ => HTTPException 422
  end.

End Api.

(** ** The loader on a file system that can fail

    [os.listdir] raises when the folder cannot be listed, and [open] or
    [read] raise on a listed name that cannot be read (a directory whose
    name ends in [.md], a file without permission, bytes that are not
    UTF-8). The code of [setup_vectorstore] is the same in both files; here
    it runs on such a file system. The definitions of [CAGSystem] and
    [CAGSystemFast] are the case of a folder that can be listed and read. *)

Module Disk.

Record FileSystem := {
  listdir : str -> outcome (list str);
  read_text : str -> outcome str
}.

(** The body of [for i, filename in enumerate(os.listdir(...))]. *)
Definition load_file {V} (svc : Services V) (fs : FileSystem) (folder : str)
    (b : batch) (ifn : nat * str) : outcome batch :=
  let '(i, filename) := ifn in
  if endswith filename (lit ".md") then
    let file_path := os_path_join folder filename in
    content ← read_text fs file_path;
    let text := render svc content in
    chunks ← CAGSystem._split_text (S (length text)) text 1000 200;
    Ok (foldl (CAGSystem.append_chunk filename) b (enumerate chunks))
  else Ok b.

Definition setup_vectorstore {V} (svc : Services V) (fs : FileSystem)
    (folder : str) (db : Chroma.Collection V) : outcome (Chroma.Collection V) :=
  let collection := db in
  if 0 <? Chroma.count collection then Ok collection
  else
    listing ← listdir fs folder;
    b ← for_each (load_file svc fs folder) (enumerate listing) empty_batch;
    if bool_decide (documents b ≠ []) then
      Chroma.add svc collection (documents b) (metadatas b) (ids b)
    else Ok collection.

Definition __init__ {V} (svc : Services V) (fs : FileSystem) (folder : str)
    (db : Chroma.Collection V) : outcome (CAGSystem.t V) :=
  c ← setup_vectorstore svc fs folder db;
  Ok {| CAGSystem.data_folder := folder; CAGSystem.collection := Some c |}.

End Disk.

(** ** [api.py]: the asynchronous routes, the job table and the health check *)

Module Routes.

(** [QueryResponse]; [timestamp] is a clock reading in microseconds and
    [processing_time] the exact quotient that [total_seconds()] rounds. *)
Record QueryResponse := {
  r_query : str;
  r_response : str;
  r_session_id : str;
  r_timestamp : Z;
  r_processing_time : Q
}.

Record JobStatus := {
  job_id : str;
  status : str;
  result : option QueryResponse;
  error : option str
}.

(** [(end_time - start_time).total_seconds()] *)
Definition total_seconds (start_time end_time : Z) : Q :=
  ((end_time - start_time) # 1000000)%Q.

(** [request.session_id or str(uuid.uuid4())] *)
Definition session_or (sid : option str) (uuid4 : str) : str :=
  match sid with
  | Some ((_ :: _) as s) => s
  | _ => uuid4
  end.

(** The [QueryResponse] built by both routes from the result of
    [process_query]. *)
Definition build_response (request : Api.QueryRequest) (res : response)
    (uuid4 : str) (start_time end_time : Z) : QueryResponse :=
  {| r_query := Api.request_query request;
     r_response := augmented_response res;
     r_session_id := session_or (Api.session_id request) uuid4;
     r_timestamp := end_time;
     r_processing_time := total_seconds start_time end_time |}.

Inductive async_reply :=
| Accepted (job_id status : str)
| Rejected (status_code : Z).

(** [POST /query/async]: [uuid4] is the identifier drawn for the job. The
    result is the reply, the job table and the background tasks added. *)
Definition process_query_async {V} (cag_system : option (CAGSystem.t V))
    (jobs : gmap str JobStatus) (uuid4 : str) (body_query : str)
    (sid : option str)
  : async_reply * gmap str JobStatus * list (str * Api.QueryRequest) :=
  match Api.validate body_query sid with
  | Ok request =>
      match cag_system with
      | None => (Rejected 503, jobs, [])
      | Some _ =>
          let job_id := uuid4 in
          (Accepted job_id (lit "processing"),
           <[job_id := {| job_id := job_id; status := lit "processing";
                          result := None; error := None |}]> jobs,
           [(job_id, request)])
      end
  | _ => (Rejected 422, jobs, [])
  end.

(** [process_query_background]: [message] is [str(e)], [uuid4] the
    identifier drawn when the request has no session, and the two times
    are the clock readings around the call. A call that does not return
    leaves the table as it is. *)
Definition process_query_background {V} (svc : Services V)
    (message : exn -> str) (cag_system : option (CAGSystem.t V))
    (jobs : gmap str JobStatus) (id : str) (request : Api.QueryRequest)
    (uuid4 : str) (start_time end_time : Z) : gmap str JobStatus :=
  match cag ← not_none AttributeError cag_system;
        CAGSystem.process_query svc cag (Api.request_query request) with
  | Ok res =>
      <[id := {| job_id := id; status := lit "completed";
                 result := Some (build_response request res uuid4
                                                start_time end_time);
                 error := None |}]> jobs
  | Raise e =>
      <[id := {| job_id := id; status := lit "failed";
                 result := None; error := Some (message e) |}]> jobs
  | Running => jobs
  end.

Inductive job_reply :=
| Found (job : JobStatus)
| NotFound (status_code : Z).

(** [GET /jobs/{job_id}] *)
Definition get_job_status (jobs : gmap str JobStatus) (id : str) : job_reply :=
  match jobs !! id with
  | Some job => Found job
  | None => NotFound 404
  end.

(** The dict returned by [GET /health]. *)
Record Health := {
  health_status : str;
  health_timestamp : Z;
  check_cag_system : bool;
  check_openai_key : bool;
  check_vector_store : bool;
  vector_store_documents : option Z
}.

(** [cag_system.collection.count()], which raises on [None]. *)
Definition collection_count {V} (cag : CAGSystem.t V) : outcome Z :=
  c ← not_none AttributeError (CAGSystem.collection cag);
  Ok (Chroma.count c).

Definition health_check {V} (cag_system : option (CAGSystem.t V))
    (openai_api_key : option str) (now : Z) : Health :=
  let counted :=
    match cag_system with
    | Some cag =>
        match collection_count cag with
        | Ok n => Some n
        | _ => None
        end
    | None => None
    end in
  {| health_status :=
       if cag_system is Some _ then lit "healthy" else lit "unhealthy";
     health_timestamp := now;
     check_cag_system := if cag_system is Some _ then true else false;
     check_openai_key :=
       match openai_api_key with
       | Some (_ :: _) => true
       | _ => false
       end;
     check_vector_store := if counted is Some _ then true else false;
     vector_store_documents := counted |}.

(** [startup_event]: [db] is the collection found on disk; a failed
    initialization leaves the global instance [None]. *)
Definition startup_event {V} (svc : Services V) (db : Chroma.Collection V)
  : option (CAGSystem.t V) :=
  match CAGSystem.__init__ svc (lit "BellaTerra") db with
  | Ok cag => Some cag
  | _ => None
  end.

(** A frame sent on the websocket: its ["type"] and its text. *)
Inductive ws_frame :=
| WsStatus (message : str)
| WsComplete (response : str)
| WsError (message : str).

(** One turn of the loop of [websocket_query], for a received text that
    parses to an object whose ["query"] is the string [query]: the frames
    sent in that turn. The query goes to [process_query] as received;
    [message] is [str(e)]. *)
Definition websocket_turn {V} (svc : Services V) (message : exn -> str)
    (cag_system : option (CAGSystem.t V)) (query : str) : list ws_frame :=
  match cag_system with
  | None => [WsError (lit "CAG System not initialized")]
  | Some cag =>
      WsStatus (lit "Processing query...") ::
      match CAGSystem.process_query svc cag query with
      | Ok res => [WsComplete (augmented_response res)]
      | Raise e => [WsError (message e)]
      | Running => []
      end
  end.

End Routes.

(** ** [cag_cli.py] *)

Module Cli.

Definition code (c : ascii) : Z := Z.of_nat (nat_of_ascii c).

(** [c.isspace()] for a code point below 256. *)
Definition isspace (c : ascii) : bool :=
  ((9 <=? code c) && (code c <=? 13))
  || ((28 <=? code c) && (code c <=? 32))
  || (code c =? 133) || (code c =? 160).

(** [c.lower()] for a code point below 256. *)
Definition lower_char (c : ascii) : ascii :=
  if ((65 <=? code c) && (code c <=? 90))
     || ((192 <=? code c) && (code c <=? 222) && negb (code c =? 215))
  then ascii_of_nat (nat_of_ascii c + 32)
  else c.

Definition lower (s : str) : str := map lower_char s.

Fixpoint lstrip (s : str) : str :=
  match s with
  | c :: s' => if isspace c then lstrip s' else s
  | [] => []
  end.

(** [s.strip()] *)
Definition strip (s : str) : str :=
  reverse (lstrip (reverse (lstrip s))).

(** What [input()] or the initialization raised. *)
Inductive error :=
| EOFError
| Failure (e : exn).

(** What the program prints, in order; [Processed] and [ProcessingError]
    stand for one call of [process_query] and the text printed for it. *)
Inductive event :=
| MissingKey
| Banner
| Initialized
| InitError (e : error)
| Goodbye
| Help
| Processed (query : str) (answer : str)
| ProcessingError (query : str) (e : exn).

(** The [while True] loop on the lines that [input()] returns; the end of
    the input raises [EOFError], which the outer handler reports before
    [sys.exit(1)]. The result is what was printed and the exit status. *)
Fixpoint loop {V} (svc : Services V) (cag : CAGSystem.t V) (inputs : list str)
  : list event * outcome Z :=
  match inputs with
  | [] => ([InitError EOFError], Ok 1)
  | line :: rest =>
      let query := strip line in
      if bool_decide (lower query ∈ [lit "quit"; lit "exit"; lit "q"]) then
        ([Goodbye], Ok 0)
      else if bool_decide (lower query = lit "help") then
        let '(events, status) := loop svc cag rest in
        (Help :: events, status)
      else if bool_decide (query = []) then
        loop svc cag rest
      else
        match CAGSystem.process_query svc cag query with
        | Ok res =>
            let '(events, status) := loop svc cag rest in
            (Processed query (augmented_response res) :: events, status)
        | Raise e =>
            let '(events, status) := loop svc cag rest in
            (ProcessingError query e :: events, status)
        | Running => ([], Running)
        end
  end.

Definition main {V} (svc : Services V) (openai_api_key : option str)
    (db : Chroma.Collection V) (inputs : list str)
  : list event * outcome Z :=
  match openai_api_key with
  | None | Some [] => ([MissingKey], Ok 1)
  | Some _ =>
      match CAGSystem.__init__ svc (lit "BellaTerra") db with
      | Ok cag =>
          let '(events, status) := loop svc cag inputs in
          (Banner :: Initialized :: events, status)
      | Raise e => ([Banner; InitError (Failure e)], Ok 1)
      | Running => ([Banner], Running)
      end
  end.

End Cli.

(** ** Vocabulary of the properties *)

(** The [j]-th window of the text: where the [j]-th chunk is cut. *)
Definition window (text : str) (chunk_size overlap : Z) (j : nat) : str :=
  slice text (Z.of_nat j * (chunk_size - overlap))
             (Z.of_nat j * (chunk_size - overlap) + chunk_size).

(** The number of windows that start inside the text. *)
Definition window_count (text : str) (chunk_size overlap : Z) : nat :=
  Z.to_nat ((len text + (chunk_size - overlap) - 1) / (chunk_size - overlap)).

(** The loop state of [_split_text] after [n] executions of its body. *)
Definition split_after (n : nat) (text : str) (chunk_size overlap : Z)
  : split_state :=
  Nat.iter n (CAGSystem.split_body text chunk_size overlap) CAGSystem.split_init.

(** The first chunk, then every later chunk without its first [overlap]
    characters ([c[overlap:]]). *)
Definition reconstruct (overlap : Z) (chunks : list str) : str :=
  match chunks with
  | [] => []
  | c :: rest => c ++ concat (map (fun c' => slice c' overlap (len c')) rest)
  end.

(** Every chunk but the last has length [chunk_size]. *)
Definition all_but_last_full (chunk_size : Z) (chunks : list str) : Prop :=
  forall i c, chunks !! i = Some c -> (S i < length chunks)%nat ->
              len c = chunk_size.

(** The plain text of a file of the data folder. *)
Definition file_text {V} (svc : Services V) (folder filename : str) : str :=
  render svc (read_file svc (os_path_join folder filename)).

(** The chunks of a file: the windows of its text for
    [chunk_size=1000, overlap=200]. *)
Definition file_chunks {V} (svc : Services V) (folder filename : str)
  : list str :=
  let text := file_text svc folder filename in
  map (window text 1000 200) (seq 0 (window_count text 1000 200)).

Definition chunk_metadata (filename : str) (j : nat) : gmap str pyval :=
  {[ lit "source" := VStr filename; lit "chunk_index" := VInt (Z.of_nat j) ]}.

Definition chunk_id (filename : str) (j : nat) : str :=
  filename ++ lit "_" ++ str_of_nat j.

(** The triples of one directory entry: none unless its name ends in
    [.md]. *)
Definition file_triples {V} (svc : Services V) (folder filename : str)
  : list (str * gmap str pyval * str) :=
  if endswith filename (lit ".md") then
    imap (fun j chunk => (chunk, chunk_metadata filename j, chunk_id filename j))
         (file_chunks svc folder filename)
  else [].

Definition listing_triples {V} (svc : Services V) (folder : str)
    (listing : list str) : list (str * gmap str pyval * str) :=
  flat_map (file_triples svc folder) listing.

(** The three lists of a batch run in parallel. *)
Definition aligned (b : batch) : Prop :=
  length (documents b) = length (metadatas b)
  /\ length (documents b) = length (ids b).

(** The value stored under ["source"] for an entry, if any. *)
Definition entry_source {V} (e : Chroma.entry V) : option pyval :=
  m ← Chroma.entry_metadata e; m !! lit "source".

(** Every entry of the collection carries a ["source"]. *)
Definition sourced {V} (c : Chroma.Collection V) : Prop :=
  Forall (fun e => is_Some (entry_source e)) c.

(** What the retriever makes of one entry of the result. *)
Definition context_of {V} (e : Chroma.entry V) : outcome context_entry :=
  src ← dict_getitem (Chroma.entry_metadata e) (lit "source");
  Ok {| content := Chroma.entry_document e; source := src |}.

(** The retriever on a row of results, entry by entry. *)
Definition contexts_of {V} (row : list (Chroma.entry V))
  : outcome (list context_entry) :=
  for_each (fun contexts e => x ← context_of e; Ok (contexts ++ [x])) row [].

(** [sub in s] *)
Definition contains (s sub : str) : Prop :=
  exists pre post, s = pre ++ sub ++ post.

(** The block of the context string for one retrieved chunk. *)
Definition context_block (ctx : context_entry) : str :=
  lit "From " ++ format_value (source ctx) ++ lit ":" ++ nl ++ content ctx.

(** What the three stages of the crew receive. *)
Definition analysis_input {V} (self : CAGSystem.t V) (query : str)
    (initial_context : list context_entry) : StageInput :=
  let task := CAGSystem.context_analysis_task self query
                (CAGSystem.format_context initial_context) in
  {| stage_agent := CAGSystem.context_analyst self;
     stage_description := Crew.description task;
     stage_expected_output := Crew.expected_output task;
     stage_context := [] |}.

Definition augmentation_input (analysis_output : str) : StageInput :=
  let task := CAGSystem.augmentation_task 0 in
  {| stage_agent := CAGSystem.context_augmenter;
     stage_description := Crew.description task;
     stage_expected_output := Crew.expected_output task;
     stage_context := [analysis_output] |}.

Definition generation_input (query analysis_output augmentation_output : str)
  : StageInput :=
  let task := CAGSystem.generation_task query 0 1 in
  {| stage_agent := CAGSystem.response_generator;
     stage_description := Crew.description task;
     stage_expected_output := Crew.expected_output task;
     stage_context := [analysis_output; augmentation_output] |}.

(** The request of the fast path. *)
Definition fast_request (query : str) (initial_context : list context_entry)
  : ChatRequest :=
  {| model := lit "gpt-4o-mini";
     messages :=
       [ (lit "system", lit "You are a helpful restaurant assistant.");
         (lit "user",
          CAGSystemFast.prompt query
            (CAGSystemFast.format_context initial_context)) ];
     temperature := (7 # 10)%Q;
     max_tokens := 500 |}.

(** ** Stand-ins for the collaborators, used in the examples

    A folder with two menus and one other file; embeddings are text
    lengths; both back ends echo what they are given. *)
Definition demo_listing : list str :=
  [lit "wine.md"; lit "notes.txt"; lit "pasta.md"].

Definition demo_services : Services nat :=
  {| listdir := fun _ => demo_listing;
     read_file := fun path =>
       if bool_decide (path = lit "BellaTerra/wine.md")
       then lit "Pinot Noir 8, pairs with pasta."
       else lit "Penne 9";
     render := fun content => content;
     embed := fun text => Ok (length text);
     distance := fun a b => Z.abs (Z.of_nat a - Z.of_nat b);
     agent_execute := fun input =>
       Ok (stage_description input ++ concat (stage_context input));
     chat_completion := fun request =>
       Ok (concat (map snd (messages request))) |}.

(** The same with an embedding service that cannot be reached. *)
Definition demo_services_down : Services nat :=
  {| listdir := listdir demo_services;
     read_file := read_file demo_services;
     render := render demo_services;
     embed := fun _ => Raise (ServiceError (lit "connection refused"));
     distance := distance demo_services;
     agent_execute := agent_execute demo_services;
     chat_completion := chat_completion demo_services |}.

(** The collection after the first start on the demo folder. *)
Definition demo_collection : Chroma.Collection nat :=
  [ {| Chroma.entry_id := lit "wine.md_0";
       Chroma.entry_document := lit "Pinot Noir 8, pairs with pasta.";
       Chroma.entry_metadata := Some (chunk_metadata (lit "wine.md") 0);
       Chroma.entry_embedding := 31%nat |};
    {| Chroma.entry_id := lit "pasta.md_0";
       Chroma.entry_document := lit "Penne 9";
       Chroma.entry_metadata := Some (chunk_metadata (lit "pasta.md") 0);
       Chroma.entry_embedding := 7%nat |} ].

(** A collection in which one entry was stored without metadata and one
    with metadata that has no ["source"]. *)
Definition lossy_collection : Chroma.Collection nat :=
  [ {| Chroma.entry_id := lit "wine.md_0";
       Chroma.entry_document := lit "Pinot Noir 8, pairs with pasta.";
       Chroma.entry_metadata := Some (chunk_metadata (lit "wine.md") 0);
       Chroma.entry_embedding := 31%nat |};
    {| Chroma.entry_id := lit "specials_0";
       Chroma.entry_document := lit "Soup of the day";
       Chroma.entry_metadata := None;
       Chroma.entry_embedding := 15%nat |} ].

Definition unsourced_collection : Chroma.Collection nat :=
  [ {| Chroma.entry_id := lit "specials_0";
       Chroma.entry_document := lit "Soup of the day";
       Chroma.entry_metadata := Some {[ lit "chunk_index" := VInt 0 ]};
       Chroma.entry_embedding := 15%nat |} ].

(** A system on the demo collection, and a query with one retrieved chunk. *)
Definition demo_system : CAGSystem.t nat :=
  {| CAGSystem.data_folder := lit "BellaTerra";
     CAGSystem.collection := Some demo_collection |}.

Definition demo_fast_system : CAGSystemFast.t nat :=
  {| CAGSystemFast.data_folder := lit "BellaTerra";
     CAGSystemFast.collection := Some demo_collection |}.

Definition demo_query : str := lit "Which wine goes best with pasta?".

Definition demo_context : list context_entry :=
  [ {| content := lit "Pinot Noir 8, pairs with pasta.";
       source := VStr (lit "wine.md") |} ].

(** What the echoing model answers at the three stages. *)
Definition demo_analysis : str :=
  stage_description (analysis_input demo_system demo_query demo_context).

Definition demo_augmentation : str :=
  stage_description (augmentation_input demo_analysis) ++ demo_analysis.

Definition demo_generation : str :=
  stage_description
    (generation_input demo_query demo_analysis demo_augmentation)
  ++ demo_analysis ++ demo_augmentation.

(** The entry stored for a triple and its embedding. *)
Definition stored {V : Type} (t : str * gmap str pyval * str) (v : V)
  : Chroma.entry V :=
  {| Chroma.entry_id := t.2;
     Chroma.entry_document := t.1.1;
     Chroma.entry_metadata := Some t.1.2;
     Chroma.entry_embedding := v |}.

(** A folder whose only menu is empty, with an embedding service that
    cannot be reached. *)
Definition bare_services : Services nat :=
  {| listdir := fun _ => [lit "notes.txt"; lit "empty.md"];
     read_file := fun path =>
       if bool_decide (path = lit "BellaTerra/notes.txt")
       then lit "not a menu" else [];
     render := fun content => content;
     embed := fun _ => Raise (ServiceError (lit "connection refused"));
     distance := distance demo_services;
     agent_execute := agent_execute demo_services;
     chat_completion := chat_completion demo_services |}.

(** The demo folder with a model that refuses every call. *)
Definition demo_services_mute : Services nat :=
  {| listdir := listdir demo_services;
     read_file := read_file demo_services;
     render := render demo_services;
     embed := embed demo_services;
     distance := distance demo_services;
     agent_execute := fun _ => Raise (ServiceError (lit "rate limit"));
     chat_completion := fun _ => Raise (ServiceError (lit "rate limit")) |}.

(** [str(e)] for the examples. *)
Definition demo_message (e : exn) : str :=
  match e with
  | AttributeError => lit "'NoneType' object has no attribute"
  | TypeError => lit "'NoneType' object is not subscriptable"
  | KeyError => lit "'source'"
  | IndexError => lit "list index out of range"
  | ValidationError => lit "validation error"
  | ServiceError msg => msg
  | OSError msg => msg
  end.

(** Lines typed at the prompt: a question, an empty line, [help], [quit]
    in another case and with spaces, and a line that is never read. *)
Definition demo_inputs : list str :=
  [ lit "  Which wine goes best with pasta? "; lit "   "; lit "HELP";
    lit " Quit "; lit "What pizza options are available?" ].

(** The demo folder as a file system, and the same folder with one more
    entry, a directory whose name ends in [.md]. *)
Definition demo_disk : Disk.FileSystem :=
  {| Disk.listdir := fun folder => Ok (listdir demo_services folder);
     Disk.read_text := fun path => Ok (read_file demo_services path) |}.

Definition demo_disk_with_directory : Disk.FileSystem :=
  {| Disk.listdir := fun _ =>
       Ok [lit "wine.md"; lit "archive.md"; lit "pasta.md"];
     Disk.read_text := fun path =>
       if bool_decide (path = lit "BellaTerra/archive.md")
       then Raise (OSError (lit "Is a directory"))
       else Ok (read_file demo_services path) |}.

(** * Properties *)

(** ** Loops *)

Lemma while_loop_iter {S} (cond : S -> bool) (body : S -> S) (n : nat) :
  forall (s : S) (fuel : nat),
    (forall j, (j < n)%nat -> cond (Nat.iter j body s) = true) ->
    cond (Nat.iter n body s) = false ->
    (n < fuel)%nat ->
    while_loop fuel cond body s = Ok (Nat.iter n body s).
Proof.
  induction n as [|n IH]; intros s fuel Htrue Hfalse Hfuel.
  - destruct fuel as [|fuel]; [lia|]. simpl in *. by rewrite Hfalse.
  - destruct fuel as [|fuel]; [lia|]. simpl.
    pose proof (Htrue 0%nat ltac:(lia)) as H0. simpl in H0. rewrite H0.
    rewrite IH with (fuel := fuel).
    + by rewrite <- Nat.iter_succ_r.
    + intros j Hj. rewrite <- Nat.iter_succ_r. apply Htrue. lia.
    + by rewrite <- Nat.iter_succ_r.
    + lia.
Qed.

Lemma while_loop_running {S} (cond : S -> bool) (body : S -> S) (fuel : nat) :
  forall s : S,
    (forall j, cond (Nat.iter j body s) = true) ->
    while_loop fuel cond body s = Running.
Proof.
  induction fuel as [|fuel IH]; intros s Htrue; [done|].
  simpl. pose proof (Htrue 0%nat) as H0. simpl in H0. rewrite H0. apply IH.
  intros j. rewrite <- Nat.iter_succ_r. apply Htrue.
Qed.

Lemma while_loop_no_raise {S} (cond : S -> bool) (body : S -> S) (fuel : nat) :
  forall (s : S) e, while_loop fuel cond body s <> Raise e.
Proof.
  induction fuel as [|fuel IH]; intros s e; [done|].
  simpl. destruct (cond s); [apply IH | done].
Qed.

Lemma for_each_cons {A S} (body : S -> A -> outcome S) (x : A) (xs : list A)
    (s : S) :
  for_each body (x :: xs) s = body s x ≫= for_each body xs.
Proof. reflexivity. Qed.

Lemma for_each_app {A S} (body : S -> A -> outcome S) (xs ys : list A) :
  forall s : S,
    for_each body (xs ++ ys) s = for_each body xs s ≫= for_each body ys.
Proof.
  induction xs as [|x xs IH]; intros s; [done|].
  simpl. destruct (body s x); simpl; [apply IH|done|done].
Qed.

(** ** Slices *)

Lemma len_nonneg {A} (l : list A) : 0 <= len l.
Proof. unfold len. lia. Qed.

Lemma slice_between {A} (text : list A) (a b : Z) :
  0 <= a <= b ->
  slice text a b = take (Z.to_nat (b - a)) (drop (Z.to_nat a) text).
Proof.
  intros [Ha Hb]. unfold slice, clamp, len.
  destruct (Z.ltb_spec a 0), (Z.ltb_spec b 0); try lia.
  destruct (Z.le_gt_cases (Z.of_nat (length text)) a) as [Hge|Hlt].
  - rewrite !drop_ge by lia. by rewrite !take_nil.
  - replace (Z.to_nat (Z.min a (Z.of_nat (length text)))) with (Z.to_nat a) by lia.
    destruct (Z.le_gt_cases b (Z.of_nat (length text))).
    + f_equal. lia.
    + rewrite !take_ge; [done| |]; rewrite length_drop; lia.
Qed.

Lemma slice_from {A} (c : list A) (n : Z) :
  0 <= n -> slice c n (len c) = drop (Z.to_nat n) c.
Proof.
  intros Hn. destruct (Z.le_gt_cases n (len c)) as [Hle|Hgt].
  - rewrite slice_between by lia. apply take_ge.
    rewrite length_drop. unfold len in *. lia.
  - unfold slice, clamp.
    destruct (Z.ltb_spec n 0), (Z.ltb_spec (len c) 0); try lia;
      pose proof (len_nonneg c); try lia.
    replace (Z.min (len c) (len c) - Z.min n (len c)) with 0 by lia.
    rewrite take_0. symmetry. apply drop_ge. unfold len in *. lia.
Qed.

Lemma window_take_drop (text : str) (cs ov : Z) (j : nat) :
  0 <= cs -> 0 <= cs - ov ->
  window text cs ov j
  = take (Z.to_nat cs) (drop (Z.to_nat (Z.of_nat j * (cs - ov))) text).
Proof.
  intros Hcs Hstep. unfold window. rewrite slice_between by nia.
  f_equal. lia.
Qed.

Lemma window_len (text : str) (cs ov : Z) (j : nat) :
  0 <= cs -> 0 <= cs - ov ->
  len (window text cs ov j)
  = Z.max 0 (Z.min cs (len text - Z.of_nat j * (cs - ov))).
Proof.
  intros Hcs Hstep. rewrite window_take_drop by done.
  unfold len. rewrite length_take, length_drop. nia.
Qed.

(** ** The chunker *)

(** After [n] executions of the body the chunks are the first [n] windows
    and [start] is [n * (chunk_size - overlap)], whatever the parameters. *)
Lemma split_after_windows (text : str) (cs ov : Z) (n : nat) :
  split_after n text cs ov
  = {| chunks := map (window text cs ov) (seq 0 n);
       start := Z.of_nat n * (cs - ov) |}.
Proof.
  unfold split_after. induction n as [|n IH]; [done|].
  rewrite Nat.iter_succ, IH. unfold CAGSystem.split_body. simpl chunks. simpl start.
  rewrite seq_S, map_app. simpl. f_equal. lia.
Qed.

Lemma window_count_spec (text : str) (cs ov : Z) :
  0 < cs - ov ->
  len text <= Z.of_nat (window_count text cs ov) * (cs - ov)
  /\ (forall j, (j < window_count text cs ov)%nat ->
                Z.of_nat j * (cs - ov) < len text)
  /\ (window_count text cs ov <= length text)%nat.
Proof.
  intros Hstep. unfold window_count.
  set (step := cs - ov) in *. set (L := len text).
  assert (0 <= L) by apply len_nonneg.
  pose proof (Z.mul_div_le (L + step - 1) step Hstep).
  pose proof (Z.mul_succ_div_gt (L + step - 1) step Hstep).
  assert (0 <= (L + step - 1) / step) by (apply Z.div_pos; lia).
  assert ((L + step - 1) / step <= L).
  { destruct (Z.eq_dec L 0) as [->|].
    - rewrite Z.div_small; lia.
    - apply Z.div_le_upper_bound; [done|]. nia. }
  split; [|split].
  - rewrite Z2Nat.id by done. nia.
  - intros j Hj. nia.
  - unfold L, len in *. lia.
Qed.

(** With [overlap < chunk_size] the loop ends after [window_count]
    executions of its body, and the chunks are the windows. *)
Lemma split_text_windows (text : str) (cs ov : Z) (fuel : nat) :
  0 < cs - ov -> (length text < fuel)%nat ->
  CAGSystem._split_text fuel text cs ov
  = Ok (map (window text cs ov) (seq 0 (window_count text cs ov))).
Proof.
  intros Hstep Hfuel.
  destruct (window_count_spec text cs ov Hstep) as (Hend & Hin & Hle).
  unfold CAGSystem._split_text.
  rewrite (while_loop_iter _ _ (window_count text cs ov)).
  - fold (split_after (window_count text cs ov) text cs ov).
    by rewrite split_after_windows.
  - intros j Hj. fold (split_after j text cs ov).
    rewrite split_after_windows. unfold CAGSystem.split_cond. simpl.
    apply Z.ltb_lt. by apply Hin.
  - fold (split_after (window_count text cs ov) text cs ov).
    rewrite split_after_windows. unfold CAGSystem.split_cond. simpl.
    apply Z.ltb_ge. lia.
  - lia.
Qed.

Lemma reconstruct_snoc (ov : Z) (l : list str) (c : str) :
  l <> [] ->
  reconstruct ov (l ++ [c]) = reconstruct ov l ++ slice c ov (len c).
Proof.
  destruct l as [|c0 l]; [done|]. intros _. simpl.
  rewrite map_app, concat_app. simpl. by rewrite app_nil_r, app_assoc.
Qed.

Lemma reconstruct_windows (text : str) (cs ov : Z) (m : nat) :
  0 <= ov < cs ->
  reconstruct ov (map (window text cs ov) (seq 0 (S m)))
  = take (Z.to_nat (cs + Z.of_nat m * (cs - ov))) text.
Proof.
  intros Hov. induction m as [|m IH].
  - simpl. rewrite app_nil_r, window_take_drop by lia.
    simpl. rewrite drop_0. f_equal. lia.
  - rewrite seq_S, map_app. simpl map at 2.
    rewrite reconstruct_snoc by done. rewrite IH.
    rewrite slice_from by lia. rewrite window_take_drop by lia.
    rewrite skipn_firstn_comm, drop_drop.
    assert (0 <= Z.of_nat m * (cs - ov)) by nia.
    replace (Z.of_nat (S m) * (cs - ov))
      with (Z.of_nat m * (cs - ov) + (cs - ov)) by lia.
    replace (Z.to_nat (Z.of_nat m * (cs - ov) + (cs - ov)) + Z.to_nat ov)%nat
      with (Z.to_nat (cs + Z.of_nat m * (cs - ov))) by lia.
    rewrite take_take_drop. f_equal. lia.
Qed.

Lemma reconstruct_all_windows (text : str) (cs ov : Z) :
  0 <= ov < cs ->
  reconstruct ov (map (window text cs ov) (seq 0 (window_count text cs ov)))
  = text.
Proof.
  intros Hov.
  destruct (window_count_spec text cs ov ltac:(lia)) as (Hend & Hin & Hle).
  destruct (window_count text cs ov) as [|m] eqn:Hn.
  - simpl. destruct text; [done|]. unfold len in Hend. simpl in Hend. lia.
  - rewrite reconstruct_windows by done. apply take_ge.
    unfold len in Hend. lia.
Qed.

Lemma split_text_lookup (text : str) (cs ov : Z) (i : nat) (c : str) :
  0 < cs -> 0 <= ov < cs ->
  map (window text cs ov) (seq 0 (window_count text cs ov)) !! i = Some c ->
  (i < window_count text cs ov)%nat
  /\ len c = Z.min cs (len text - Z.of_nat i * (cs - ov))
  /\ 0 < len c.
Proof.
  intros Hcs Hov Hi.
  destruct (window_count_spec text cs ov ltac:(lia)) as (Hend & Hin & Hle).
  rewrite list_lookup_fmap in Hi.
  destruct (seq 0 (window_count text cs ov) !! i) as [j|] eqn:Hj; [|done].
  apply lookup_seq in Hj as [-> Hlt]. simpl in Hi. injection Hi as <-.
  specialize (Hin i Hlt). rewrite window_len by lia. lia.
Qed.

(** C2, as amended: for [chunk_size > 0] and [0 <= overlap < chunk_size] the
    loop returns within [len(text) + 1] tests; the first chunk followed by
    every later chunk without its first [overlap] characters is the text;
    chunk [i] has [min(chunk_size, len(text) - i * (chunk_size - overlap))]
    characters and is not empty, so a chunk whose window lies inside the
    text has exactly [chunk_size] characters; and with [overlap = 0] every
    chunk but the last has [chunk_size] characters. *)
Theorem split_text_reconstructs (text : str) (chunk_size overlap : Z)
    (fuel : nat) :
  0 < chunk_size -> 0 <= overlap < chunk_size -> (length text < fuel)%nat ->
  exists chunks,
    CAGSystem._split_text fuel text chunk_size overlap = Ok chunks
    /\ reconstruct overlap chunks = text
    /\ (forall i c, chunks !! i = Some c ->
          len c = Z.min chunk_size
                        (len text - Z.of_nat i * (chunk_size - overlap))
          /\ 0 < len c
          /\ (Z.of_nat i * (chunk_size - overlap) + chunk_size <= len text ->
              len c = chunk_size))
    /\ (overlap = 0 -> all_but_last_full chunk_size chunks).
Proof.
  intros Hcs Hov Hfuel.
  exists (map (window text chunk_size overlap)
              (seq 0 (window_count text chunk_size overlap))).
  split; [apply split_text_windows; lia|].
  split; [by apply reconstruct_all_windows|].
  split.
  - intros i c Hi.
    destruct (split_text_lookup _ _ _ _ _ Hcs Hov Hi) as (_ & Hlen & Hpos).
    repeat split; [done|done|]. intros Hfit. lia.
  - intros -> i c Hi Hnext.
    rewrite length_map, length_seq in Hnext.
    destruct (split_text_lookup _ _ _ _ _ Hcs Hov Hi) as (_ & Hlen & _).
    destruct (window_count_spec text chunk_size 0 ltac:(lia)) as (_ & Hin & _).
    specialize (Hin (S i) Hnext). lia.
Qed.

Lemma split_text_reconstructs_witness :
  exists chunks,
    CAGSystem._split_text 11 (lit "abcdefghij") 5 3 = Ok chunks
    /\ reconstruct 3 chunks = lit "abcdefghij".
Proof.
  destruct (split_text_reconstructs (lit "abcdefghij") 5 3 11)
    as (chunks & Hrun & Hrec & _); [lia | lia | simpl; lia |].
  exists chunks. split; [exact Hrun | exact Hrec].
Defined.

(** C2, as stated, fails: with [chunk_size = 5] and [overlap = 3] the ten
    characters [abcdefghij] give the chunks [abcde], [cdefg], [efghi],
    [ghij], [ij]; the text is reconstructed, but the fourth chunk has four
    characters and is not the last. *)
Lemma split_text_short_chunk_before_last :
  exists chunks,
    CAGSystem._split_text 11 (lit "abcdefghij") 5 3 = Ok chunks
    /\ reconstruct 3 chunks = lit "abcdefghij"
    /\ ~ all_but_last_full 5 chunks.
Proof.
  eexists. split; [reflexivity|]. split; [reflexivity|].
  intros Hfull. specialize (Hfull 3%nat (lit "ghij") eq_refl).
  simpl in Hfull. specialize (Hfull ltac:(lia)). discriminate Hfull.
Qed.

(** The same with the parameters of the loader: a text of 1700 characters
    is cut into chunks of 1000, 900 and 100 characters. *)
Lemma split_text_default_short_chunk :
  exists chunks,
    CAGSystem._split_text 1701 (replicate 1700 "x"%char) 1000 200 = Ok chunks
    /\ map len chunks = [1000; 900; 100].
Proof. eexists. split; vm_compute; reflexivity. Qed.

(** C1, as amended: [_split_text] does not compare [overlap] with
    [chunk_size] and has no error path. With [chunk_size <= overlap] it
    never raises; on the empty text it returns no chunk; on any other text
    [start] never reaches [len(text)], every execution of the body appends
    a chunk, and the loop does not return for any amount of fuel. *)
Theorem split_text_overlap_not_validated (text : str) (chunk_size overlap : Z) :
  chunk_size <= overlap ->
  (forall fuel e, CAGSystem._split_text fuel text chunk_size overlap <> Raise e)
  /\ (text = [] ->
      forall fuel, CAGSystem._split_text (S fuel) text chunk_size overlap = Ok [])
  /\ (text <> [] ->
      (forall fuel,
          CAGSystem._split_text fuel text chunk_size overlap = Running)
      /\ (forall n,
             CAGSystem.split_cond text (split_after n text chunk_size overlap)
             = true
             /\ length (chunks (split_after n text chunk_size overlap)) = n)).
Proof.
  intros Hle. split; [|split].
  - intros fuel e. unfold CAGSystem._split_text.
    destruct (while_loop _ _ _ _) eqn:Hw; try done.
    by apply while_loop_no_raise in Hw.
  - intros -> fuel. reflexivity.
  - intros Hne.
    assert (Hcond : forall n,
      CAGSystem.split_cond text (split_after n text chunk_size overlap) = true).
    { intros n. rewrite split_after_windows. unfold CAGSystem.split_cond.
      simpl. apply Z.ltb_lt. destruct text; [done|]. unfold len. simpl. nia. }
    split.
    + intros fuel. unfold CAGSystem._split_text.
      by rewrite while_loop_running.
    + intros n. split; [apply Hcond|].
      rewrite split_after_windows. simpl. by rewrite length_map, length_seq.
Qed.

Lemma split_text_overlap_not_validated_witness :
  500 <= 1000
  /\ CAGSystem._split_text 2000 (lit "a") 500 1000 = Running.
Proof.
  split; [lia|].
  apply (split_text_overlap_not_validated (lit "a") 500 1000); [lia | easy].
Defined.

(** C1, as stated, fails: with [chunk_size = 500] and [overlap = 1000] the
    call on the text [a] raises nothing; after three executions of the body
    three chunks have been appended and the loop condition still holds, and
    after 2000 tests the loop is still running. *)
Lemma split_text_overlap_loops :
  CAGSystem._split_text 2000 (lit "a") 500 1000 = Running
  /\ chunks (split_after 3 (lit "a") 500 1000) = [lit "a"; lit ""; lit ""]
  /\ CAGSystem.split_cond (lit "a") (split_after 3 (lit "a") 500 1000) = true.
Proof. split; [|split]; vm_compute; reflexivity. Qed.

(** ** The document loader *)

Lemma aligned_empty : aligned empty_batch.
Proof. by split. Qed.

Lemma append_chunk_triples (filename : str) (b : batch) (j : nat) (c : str) :
  aligned b ->
  aligned (CAGSystem.append_chunk filename b (j, c))
  /\ triples (CAGSystem.append_chunk filename b (j, c))
     = triples b ++ [(c, chunk_metadata filename j, chunk_id filename j)].
Proof.
  intros [Hm Hi]. split.
  - split; simpl; rewrite !length_app; simpl; lia.
  - unfold triples. simpl.
    rewrite (zip_with_app _ (documents b)) by done.
    rewrite zip_with_app by (rewrite length_zip_with; lia).
    reflexivity.
Qed.

Lemma foldl_append_chunk (filename : str) (chunks : list str) :
  forall (g : nat -> nat) (b : batch),
    aligned b ->
    aligned (foldl (CAGSystem.append_chunk filename) b
                   (imap (fun i x => (g i, x)) chunks))
    /\ triples (foldl (CAGSystem.append_chunk filename) b
                      (imap (fun i x => (g i, x)) chunks))
       = triples b
         ++ imap (fun i c => (c, chunk_metadata filename (g i),
                              chunk_id filename (g i))) chunks.
Proof.
  induction chunks as [|c chunks IH]; intros g b Hb.
  - simpl. by rewrite app_nil_r.
  - simpl.
    destruct (append_chunk_triples filename b (g 0%nat) c Hb) as [Hb' Ht].
    destruct (IH (fun i => g (S i)) _ Hb') as [Hal Htr].
    split; [exact Hal|].
    etrans; [exact Htr|]. rewrite Ht, <- app_assoc. done.
Qed.

Lemma load_file_triples {V} (svc : Services V) (folder : str) (b : batch)
    (i : nat) (filename : str) :
  aligned b ->
  exists b', CAGSystem.load_file svc folder b (i, filename) = Ok b'
             /\ aligned b'
             /\ triples b' = triples b ++ file_triples svc folder filename.
Proof.
  intros Hb. unfold CAGSystem.load_file, file_triples.
  destruct (endswith filename (lit ".md")).
  - rewrite split_text_windows by lia. simpl.
    destruct (foldl_append_chunk filename
                (file_chunks svc folder filename) (fun i => i) b Hb)
      as [Hal Htr].
    eexists. split; [reflexivity|]. split; [exact Hal | exact Htr].
  - exists b. by rewrite app_nil_r.
Qed.

Lemma for_each_load_file {V} (svc : Services V) (folder : str)
    (listing : list str) :
  forall (g : nat -> nat) (b : batch),
    aligned b ->
    exists b', for_each (CAGSystem.load_file svc folder)
                        (imap (fun i x => (g i, x)) listing) b = Ok b'
               /\ aligned b'
               /\ triples b' = triples b ++ listing_triples svc folder listing.
Proof.
  induction listing as [|fn listing IH]; intros g b Hb.
  - exists b. simpl. by rewrite app_nil_r.
  - rewrite imap_cons, for_each_cons.
    destruct (load_file_triples svc folder b (g 0%nat) fn Hb)
      as (b1 & Hrun & Hal & Htr).
    rewrite Hrun. cbn [mbind outcome_bind].
    destruct (IH (fun i => g (S i)) b1 Hal) as (b2 & Hrun2 & Hal2 & Htr2).
    exists b2. split; [exact Hrun2|]. split; [exact Hal2|].
    rewrite Htr2, Htr, <- app_assoc. done.
Qed.

(** The loader returns, and the triples it has built are those of the
    directory entries, in the order of the listing. *)
Lemma load_documents_triples {V} (svc : Services V) (folder : str)
    (listing : list str) :
  exists b, CAGSystem.load_documents svc folder listing = Ok b
            /\ aligned b
            /\ triples b = listing_triples svc folder listing.
Proof.
  destruct (for_each_load_file svc folder listing (fun i => i) empty_batch
              aligned_empty) as (b & Hrun & Hal & Htr).
  exists b. split; [exact Hrun|]. split; [exact Hal|exact Htr].
Qed.

(** ** Chunk identifiers *)

Lemma lit_inj (s1 s2 : string) : lit s1 = lit s2 -> s1 = s2.
Proof.
  unfold lit. intros H.
  rewrite <- (string_of_list_ascii_of_string s1),
          <- (string_of_list_ascii_of_string s2).
  by rewrite H.
Qed.

Lemma str_of_nat_inj (j1 j2 : nat) : str_of_nat j1 = str_of_nat j2 -> j1 = j2.
Proof.
  unfold str_of_nat. intros H%lit_inj.
  assert (Hu : Nat.to_uint j1 = Nat.to_uint j2).
  { apply (f_equal NilEmpty.uint_of_string) in H.
    rewrite !NilEmpty.usu in H. by injection H. }
  rewrite <- (DecimalNat.Unsigned.of_to j1), <- (DecimalNat.Unsigned.of_to j2).
  by rewrite Hu.
Qed.

(** The decimal digits of a number hold no underscore. *)
Lemma string_of_uint_no_underscore (d : Decimal.uint) :
  "_"%char ∉ lit (NilEmpty.string_of_uint d).
Proof.
  induction d; unfold lit in *; simpl;
    [ apply not_elem_of_nil
    | apply not_elem_of_cons; split; [discriminate | assumption] .. ].
Qed.

Lemma str_of_nat_no_underscore (j : nat) : "_"%char ∉ str_of_nat j.
Proof. apply string_of_uint_no_underscore. Qed.

(** A string is cut in one way only at its last underscore. *)
Lemma split_at_last_underscore (a b d1 d2 : str) :
  "_"%char ∉ d1 -> "_"%char ∉ d2 ->
  a ++ "_"%char :: d1 = b ++ "_"%char :: d2 ->
  a = b /\ d1 = d2.
Proof.
  intros H1 H2. revert b. induction a as [|x a IH]; intros [|y b] Heq.
  - by injection Heq.
  - simpl in Heq. injection Heq as <- ->.
    exfalso. apply H1. apply elem_of_app. right. apply elem_of_cons. by left.
  - simpl in Heq. injection Heq as -> <-.
    exfalso. apply H2. apply elem_of_app. right. apply elem_of_cons. by left.
  - simpl in Heq. injection Heq as -> Heq.
    destruct (IH b Heq) as [-> ->]. done.
Qed.

Lemma chunk_id_inj (f1 f2 : str) (j1 j2 : nat) :
  chunk_id f1 j1 = chunk_id f2 j2 -> f1 = f2 /\ j1 = j2.
Proof.
  unfold chunk_id. intros Heq.
  apply split_at_last_underscore in Heq as [-> Hd];
    [| apply str_of_nat_no_underscore ..].
  split; [done|]. by apply str_of_nat_inj.
Qed.

(** What the triples of one directory entry look like. *)
Lemma elem_of_file_triples {V} (svc : Services V) (folder filename : str)
    (t : str * gmap str pyval * str) :
  t ∈ file_triples svc folder filename <->
  endswith filename (lit ".md") = true
  /\ exists j chunk,
       file_chunks svc folder filename !! j = Some chunk
       /\ t = (chunk, chunk_metadata filename j, chunk_id filename j).
Proof.
  unfold file_triples. destruct (endswith filename (lit ".md")).
  - rewrite elem_of_lookup_imap. split.
    + intros (j & chunk & -> & Hj). split; [done|]. by exists j, chunk.
    + intros (_ & j & chunk & Hj & ->). by exists j, chunk.
  - split; [by intros ?%elem_of_nil | by intros [? _]].
Qed.

Lemma elem_of_listing_triples {V} (svc : Services V) (folder : str)
    (listing : list str) (t : str * gmap str pyval * str) :
  t ∈ listing_triples svc folder listing <->
  exists filename, filename ∈ listing /\ t ∈ file_triples svc folder filename.
Proof.
  unfold listing_triples. rewrite list_elem_of_In, in_flat_map.
  split; intros (fn & Hfn & Ht); exists fn.
  - by rewrite !list_elem_of_In.
  - by rewrite <- !list_elem_of_In.
Qed.

Lemma file_ids_NoDup {V} (svc : Services V) (folder filename : str) :
  NoDup (map snd (file_triples svc folder filename)).
Proof.
  unfold file_triples. destruct (endswith filename (lit ".md")); [|constructor].
  apply NoDup_alt. intros i j x Hi Hj.
  rewrite list_lookup_fmap, list_lookup_imap in Hi, Hj.
  destruct (file_chunks svc folder filename !! i); [|done].
  destruct (file_chunks svc folder filename !! j); [|done].
  simpl in Hi, Hj. injection Hi as <-. injection Hj as Heq.
  apply chunk_id_inj in Heq as [_ ?]. done.
Qed.

Lemma listing_ids_NoDup {V} (svc : Services V) (folder : str)
    (listing : list str) :
  NoDup listing -> NoDup (map snd (listing_triples svc folder listing)).
Proof.
  unfold listing_triples. induction 1 as [|fn listing Hfn Hnd IH]; [constructor|].
  simpl. rewrite map_app. apply NoDup_app. split; [apply file_ids_NoDup|].
  split; [|exact IH].
  intros x Hx Hx'.
  apply list_elem_of_fmap in Hx as (t & -> & Ht).
  apply list_elem_of_fmap in Hx' as (t' & Heq & Ht').
  apply elem_of_file_triples in Ht as (_ & j & c & _ & ->).
  apply (elem_of_listing_triples svc folder) in Ht' as (fn' & Hin & Ht').
  apply elem_of_file_triples in Ht' as (_ & j' & c' & _ & ->).
  simpl in Heq. apply chunk_id_inj in Heq as [-> _]. done.
Qed.

Lemma aligned_ids (b : batch) : aligned b -> ids b = map snd (triples b).
Proof.
  intros [Hm Hi]. unfold triples. symmetry. apply snd_zip.
  rewrite length_zip_with. lia.
Qed.

Example demo_setup :
  CAGSystem.setup_vectorstore demo_services (lit "BellaTerra") []
  = Ok demo_collection.
Proof. vm_compute. reflexivity. Qed.

Example demo_retrieve :
  CAGSystem.retrieve_context demo_services
    {| CAGSystem.data_folder := lit "BellaTerra";
       CAGSystem.collection := Some demo_collection |}
    (lit "Which wine goes best with pasta?") 1
  = Ok [ {| content := lit "Pinot Noir 8, pairs with pasta.";
            source := VStr (lit "wine.md") |} ].
Proof. vm_compute. reflexivity. Qed.

(** ** The two modules share the loader and the retriever *)

Lemma fast_split_text :
  CAGSystemFast._split_text = CAGSystem._split_text.
Proof. reflexivity. Qed.

Lemma fast_load_documents {V} (svc : Services V) :
  CAGSystemFast.load_documents svc = CAGSystem.load_documents svc.
Proof. reflexivity. Qed.

Lemma fast_setup_vectorstore {V} (svc : Services V) :
  CAGSystemFast.setup_vectorstore svc = CAGSystem.setup_vectorstore svc.
Proof. reflexivity. Qed.

Lemma fast_retrieve_context {V} (svc : Services V) (folder : str)
    (c : option (Chroma.Collection V)) (query : str) (k : nat) :
  CAGSystemFast.retrieve_context svc
    {| CAGSystemFast.data_folder := folder; CAGSystemFast.collection := c |}
    query k
  = CAGSystem.retrieve_context svc
      {| CAGSystem.data_folder := folder; CAGSystem.collection := c |}
      query k.
Proof. reflexivity. Qed.

Lemma fast_format_context :
  CAGSystemFast.format_context = CAGSystem.format_context.
Proof. reflexivity. Qed.

(** C7: for a listing without repeated names the loader returns; each
    triple it has built is a chunk of a file [filename] of the listing whose
    name ends in [.md], with the metadata
    [{source: filename, chunk_index: j}] and the id [filename_j], [j] being
    the position of the chunk in the file; and the ids are pairwise
    distinct. Both modules build the same batch. *)
Theorem chunk_ids_unique {V} (svc : Services V) (folder : str)
    (listing : list str) :
  NoDup listing ->
  exists b,
    CAGSystem.load_documents svc folder listing = Ok b
    /\ CAGSystemFast.load_documents svc folder listing = Ok b
    /\ (forall t, t ∈ triples b <->
          exists filename j chunk,
            filename ∈ listing
            /\ endswith filename (lit ".md") = true
            /\ file_chunks svc folder filename !! j = Some chunk
            /\ t = (chunk,
                    {[ lit "source" := VStr filename;
                       lit "chunk_index" := VInt (Z.of_nat j) ]},
                    filename ++ lit "_" ++ str_of_nat j))
    /\ ids b = map snd (triples b)
    /\ NoDup (ids b).
Proof.
  intros Hnd.
  destruct (load_documents_triples svc folder listing) as (b & Hrun & Hal & Htr).
  exists b. split; [exact Hrun|]. split; [exact Hrun|]. split; [|split].
  - intros t. rewrite Htr, elem_of_listing_triples. split.
    + intros (fn & Hfn & Ht).
      apply elem_of_file_triples in Ht as (Hmd & j & c & Hj & ->).
      by exists fn, j, c.
    + intros (fn & j & c & Hfn & Hmd & Hj & ->).
      exists fn. split; [done|]. apply elem_of_file_triples.
      split; [done|]. by exists j, c.
  - by apply aligned_ids.
  - rewrite (aligned_ids b Hal), Htr. by apply listing_ids_NoDup.
Qed.

Lemma chunk_ids_unique_witness :
  NoDup demo_listing
  /\ exists b,
       CAGSystem.load_documents demo_services (lit "BellaTerra") demo_listing
       = Ok b
       /\ ids b = [lit "wine.md_0"; lit "pasta.md_0"]
       /\ NoDup (ids b).
Proof.
  assert (Hnd : NoDup demo_listing).
  { apply (bool_decide_unpack _). vm_compute. exact I. }
  split; [exact Hnd|].
  destruct (chunk_ids_unique demo_services (lit "BellaTerra") demo_listing Hnd)
    as (b & Hrun & _ & _ & _ & Hids).
  exists b. split; [exact Hrun|]. split; [|exact Hids].
  vm_compute in Hrun. injection Hrun as <-. vm_compute. reflexivity.
Defined.

(** C10: two listings of the data folder that are permutations of one
    another give the same triples up to order, hence the same set of
    triples: the triples of a file depend on its name and content only. *)
Theorem load_documents_order_independent {V} (svc : Services V) (folder : str)
    (listing1 listing2 : list str) :
  listing1 ≡ₚ listing2 ->
  exists b1 b2,
    CAGSystem.load_documents svc folder listing1 = Ok b1
    /\ CAGSystem.load_documents svc folder listing2 = Ok b2
    /\ CAGSystemFast.load_documents svc folder listing1 = Ok b1
    /\ CAGSystemFast.load_documents svc folder listing2 = Ok b2
    /\ triples b1 = flat_map (file_triples svc folder) listing1
    /\ triples b2 = flat_map (file_triples svc folder) listing2
    /\ triples b1 ≡ₚ triples b2
    /\ (forall t, t ∈ triples b1 <-> t ∈ triples b2).
Proof.
  intros Hperm.
  destruct (load_documents_triples svc folder listing1) as (b1 & Hrun1 & _ & Ht1).
  destruct (load_documents_triples svc folder listing2) as (b2 & Hrun2 & _ & Ht2).
  assert (Hp : triples b1 ≡ₚ triples b2).
  { rewrite Ht1, Ht2. unfold listing_triples. by apply Permutation_flat_map. }
  exists b1, b2. repeat split; try done.
  - by rewrite <- Hp.
  - by rewrite Hp.
Qed.

Lemma load_documents_order_independent_witness :
  demo_listing ≡ₚ reverse demo_listing
  /\ exists b1 b2,
       CAGSystem.load_documents demo_services (lit "BellaTerra") demo_listing
       = Ok b1
       /\ CAGSystem.load_documents demo_services (lit "BellaTerra")
            (reverse demo_listing) = Ok b2
       /\ ids b1 = [lit "wine.md_0"; lit "pasta.md_0"]
       /\ ids b2 = [lit "pasta.md_0"; lit "wine.md_0"]
       /\ triples b1 ≡ₚ triples b2.
Proof.
  assert (Hp : demo_listing ≡ₚ reverse demo_listing)
    by (symmetry; apply reverse_Permutation).
  split; [exact Hp|].
  destruct (load_documents_order_independent demo_services (lit "BellaTerra")
              demo_listing (reverse demo_listing) Hp)
    as (b1 & b2 & Hrun1 & Hrun2 & _ & _ & _ & _ & Hperm & _).
  exists b1, b2. split; [exact Hrun1|]. split; [exact Hrun2|].
  vm_compute in Hrun1. injection Hrun1 as <-.
  vm_compute in Hrun2. injection Hrun2 as <-.
  split; [vm_compute; reflexivity|]. split; [vm_compute; reflexivity|].
  exact Hperm.
Defined.

(** ** The index store *)

Lemma count_pos {V} (c : Chroma.Collection V) :
  0 < Chroma.count c <-> c <> [].
Proof.
  unfold Chroma.count, len. destruct c; simpl; split; intros; try done; lia.
Qed.

Lemma setup_vectorstore_populated {V} (svc : Services V) (folder : str)
    (db : Chroma.Collection V) :
  db <> [] -> CAGSystem.setup_vectorstore svc folder db = Ok db.
Proof.
  intros Hne%count_pos. unfold CAGSystem.setup_vectorstore.
  apply Z.ltb_lt in Hne. by rewrite Hne.
Qed.

(** C3: a collection that holds at least one entry is left as it is by
    [setup_vectorstore], which then reads and embeds nothing; and a second
    run on the collection left by a first run returns that collection, so
    the number of entries after two runs is the number after one. The same
    holds in both modules. *)
Theorem setup_vectorstore_idempotent {V} (svc : Services V) (folder : str)
    (db : Chroma.Collection V) :
  (0 < Chroma.count db ->
   CAGSystem.setup_vectorstore svc folder db = Ok db
   /\ CAGSystemFast.setup_vectorstore svc folder db = Ok db)
  /\ (forall c1,
        CAGSystem.setup_vectorstore svc folder db = Ok c1 ->
        CAGSystem.setup_vectorstore svc folder c1 = Ok c1
        /\ CAGSystemFast.setup_vectorstore svc folder c1 = Ok c1
        /\ (forall c2, CAGSystem.setup_vectorstore svc folder c1 = Ok c2 ->
                       Chroma.count c2 = Chroma.count c1)).
Proof.
  split.
  - intros Hne%count_pos. split; by apply setup_vectorstore_populated.
  - intros c1 Hrun.
    assert (Hagain : CAGSystem.setup_vectorstore svc folder c1 = Ok c1).
    { destruct c1 as [|e c1]; [|by apply setup_vectorstore_populated].
      destruct db as [|e db]; [exact Hrun|].
      by rewrite setup_vectorstore_populated in Hrun. }
    repeat split; try done.
    intros c2 Hc2. rewrite Hagain in Hc2. by injection Hc2 as <-.
Qed.

Lemma setup_vectorstore_idempotent_witness :
  CAGSystem.setup_vectorstore demo_services (lit "BellaTerra") []
  = Ok demo_collection
  /\ Chroma.count demo_collection = 2
  /\ CAGSystem.setup_vectorstore demo_services (lit "BellaTerra") demo_collection
     = Ok demo_collection.
Proof.
  assert (Hrun : CAGSystem.setup_vectorstore demo_services (lit "BellaTerra") []
                 = Ok demo_collection) by (vm_compute; reflexivity).
  split; [exact Hrun|]. split; [reflexivity|].
  apply (proj2 (setup_vectorstore_idempotent demo_services (lit "BellaTerra") [])
           demo_collection Hrun).
Defined.

Lemma insert_by_perm {A} (key : A -> Z) (x : A) (l : list A) :
  Chroma.insert_by key x l ≡ₚ x :: l.
Proof.
  induction l as [|y l IH]; [done|]. simpl.
  destruct (key x <=? key y); [done|]. rewrite IH. apply Permutation_swap.
Qed.

Lemma sort_by_perm {A} (key : A -> Z) (l : list A) :
  Chroma.sort_by key l ≡ₚ l.
Proof.
  unfold Chroma.sort_by. induction l as [|x l IH]; [done|].
  simpl. by rewrite insert_by_perm, IH.
Qed.

Lemma nearest_length {V} (svc : Services V) (c : Chroma.Collection V) (v : V)
    (k : nat) :
  length (Chroma.nearest svc c v k) = Nat.min k (length c).
Proof.
  unfold Chroma.nearest. rewrite length_take.
  by rewrite (Permutation_length (sort_by_perm _ c)).
Qed.

Lemma nearest_elem {V} (svc : Services V) (c : Chroma.Collection V) (v : V)
    (k : nat) (e : Chroma.entry V) :
  e ∈ Chroma.nearest svc c v k -> e ∈ c.
Proof.
  unfold Chroma.nearest. intros He.
  rewrite <- (sort_by_perm (fun e => distance svc v (Chroma.entry_embedding e)) c).
  rewrite <- (take_drop k (Chroma.sort_by _ c)).
  apply elem_of_app. by left.
Qed.

(** A query with one text embeds it and returns one row. *)
Lemma query_single {V} (svc : Services V) (c : Chroma.Collection V) (q : str)
    (k : nat) :
  Chroma.query svc c [q] k
  = v ← embed svc q;
    Ok {| Chroma.res_documents :=
            Some [map Chroma.entry_document (Chroma.nearest svc c v k)];
          Chroma.res_metadatas :=
            Some [map Chroma.entry_metadata (Chroma.nearest svc c v k)] |}.
Proof.
  unfold Chroma.query, Chroma.embed_all. simpl. by destruct (embed svc q).
Qed.

(** ** The retriever *)

Lemma retrieve_loop {V} (row : list (Chroma.entry V))
    (results : Chroma.QueryResult) :
  Chroma.res_metadatas results = Some [map Chroma.entry_metadata row] ->
  forall (rest pre : list (Chroma.entry V)) (g : nat -> nat)
         (acc : list context_entry),
    row = pre ++ rest ->
    (forall i, g i = (length pre + i)%nat) ->
    for_each (fun contexts '(i, doc) =>
                src ← CAGSystem.source_of results i;
                Ok (contexts ++ [ {| content := doc; source := src |} ]))
             (imap (fun i d => (g i, d)) (map Chroma.entry_document rest)) acc
    = for_each (fun contexts e => x ← context_of e; Ok (contexts ++ [x]))
               rest acc.
Proof.
  intros Hres. induction rest as [|e rest IH]; intros pre g acc Hrow Hg; [done|].
  simpl map. rewrite imap_cons, !for_each_cons.
  assert (Hsrc : CAGSystem.source_of results (g 0%nat)
                 = dict_getitem (Chroma.entry_metadata e) (lit "source")).
  { unfold CAGSystem.source_of, list_getitem. rewrite Hres, Hg, Hrow.
    rewrite list_lookup_fmap, Nat.add_0_r, list_lookup_middle by done.
    reflexivity. }
  cbn beta iota. rewrite Hsrc. unfold context_of.
  destruct (dict_getitem (Chroma.entry_metadata e) (lit "source")); try done.
  cbn [mbind outcome_bind].
  apply (IH (pre ++ [e]) (fun i => g (S i))).
  - by rewrite <- app_assoc.
  - intros i. rewrite Hg, length_app. simpl. lia.
Qed.

(** With a collection in place and a reachable embedding service the
    retriever maps the row of nearest entries, entry by entry. *)
Lemma retrieve_context_row {V} (svc : Services V) (self : CAGSystem.t V)
    (c : Chroma.Collection V) (q : str) (k : nat) (v : V) :
  CAGSystem.collection self = Some c ->
  embed svc q = Ok v ->
  CAGSystem.retrieve_context svc self q k
  = contexts_of (Chroma.nearest svc c v k).
Proof.
  intros Hc Hv. unfold CAGSystem.retrieve_context.
  rewrite Hc. simpl. rewrite query_single, Hv. simpl.
  destruct (Chroma.nearest svc c v k) as [|e row] eqn:Hrow; [done|].
  simpl map.
  apply (retrieve_loop (e :: row)
           {| Chroma.res_documents :=
                Some [map Chroma.entry_document (e :: row)];
              Chroma.res_metadatas :=
                Some [map Chroma.entry_metadata (e :: row)] |}
           eq_refl (e :: row) [] (fun i => i)); done.
Qed.

Lemma context_of_sourced {V} (e : Chroma.entry V) (s : pyval) :
  entry_source e = Some s ->
  context_of e = Ok {| content := Chroma.entry_document e; source := s |}.
Proof.
  unfold entry_source, context_of, dict_getitem.
  destruct (Chroma.entry_metadata e) as [m|]; [|done].
  simpl. by intros ->.
Qed.

Lemma contexts_of_sourced_acc {V} (row : list (Chroma.entry V)) :
  Forall (fun e => is_Some (entry_source e)) row ->
  forall acc,
    exists ctxs,
      for_each (fun contexts e => x ← context_of e; Ok (contexts ++ [x]))
               row acc = Ok (acc ++ ctxs)
      /\ length ctxs = length row
      /\ map content ctxs = map Chroma.entry_document row
      /\ map (Some ∘ source) ctxs = map entry_source row.
Proof.
  induction 1 as [|e row [s Hs] Hrow IH]; intros acc.
  - exists []. by rewrite app_nil_r.
  - rewrite for_each_cons, (context_of_sourced e s Hs).
    cbn [mbind outcome_bind].
    destruct (IH (acc ++ [ {| content := Chroma.entry_document e;
                              source := s |} ])) as (ctxs & Hrun & Hlen & Hc & Hsrc).
    eexists (_ :: ctxs). rewrite Hrun, <- app_assoc. simpl.
    split; [done|]. split; [by rewrite Hlen|]. split; [by rewrite Hc|].
    by rewrite Hs, Hsrc.
Qed.

Lemma context_of_missing {V} (e : Chroma.entry V) :
  entry_source e = None ->
  context_of e = Raise TypeError \/ context_of e = Raise KeyError.
Proof.
  unfold entry_source, context_of, dict_getitem.
  destruct (Chroma.entry_metadata e) as [m|]; [|by left].
  simpl. intros ->. by right.
Qed.

Lemma contexts_of_missing_acc {V} (row : list (Chroma.entry V))
    (e : Chroma.entry V) :
  e ∈ row -> entry_source e = None ->
  forall acc,
    for_each (fun contexts e => x ← context_of e; Ok (contexts ++ [x]))
             row acc = Raise TypeError
    \/ for_each (fun contexts e => x ← context_of e; Ok (contexts ++ [x]))
                row acc = Raise KeyError.
Proof.
  intros Hin Hnone. induction row as [|e' row IH]; intros acc.
  - by apply elem_of_nil in Hin.
  - rewrite for_each_cons.
    destruct (entry_source e') as [s|] eqn:Hs.
    + rewrite (context_of_sourced e' s Hs). cbn [mbind outcome_bind].
      apply IH. apply elem_of_cons in Hin as [->|Hin]; [congruence|done].
    + destruct (context_of_missing e' Hs) as [-> | ->]; [by left | by right].
Qed.

(** C9: with a reachable embedding service, on a collection whose entries
    all carry a source and which holds fewer than [k] entries, the
    retriever returns one context per stored entry, hence fewer than [k];
    on the empty collection it returns the empty list and raises
    nothing. *)
Theorem retrieve_context_fewer_than_k {V} (svc : Services V) (folder : str)
    (c : Chroma.Collection V) (q : str) (k : nat) (v : V) :
  embed svc q = Ok v -> sourced c -> (length c < k)%nat ->
  exists ctxs,
    CAGSystem.retrieve_context svc
      {| CAGSystem.data_folder := folder; CAGSystem.collection := Some c |} q k
    = Ok ctxs
    /\ CAGSystemFast.retrieve_context svc
         {| CAGSystemFast.data_folder := folder;
            CAGSystemFast.collection := Some c |} q k
       = Ok ctxs
    /\ length ctxs = length c
    /\ (length ctxs < k)%nat
    /\ map content ctxs
       = map Chroma.entry_document (Chroma.nearest svc c v k)
    /\ (c = [] -> ctxs = []).
Proof.
  intros Hv Hsrc Hk.
  assert (Hrow : Forall (fun e => is_Some (entry_source e))
                        (Chroma.nearest svc c v k)).
  { apply Forall_forall. intros e He%nearest_elem.
    unfold sourced in Hsrc. rewrite Forall_forall in Hsrc. by apply Hsrc. }
  destruct (contexts_of_sourced_acc _ Hrow []) as (ctxs & Hrun & Hlen & Hc & _).
  rewrite nearest_length in Hlen.
  exists ctxs. rewrite fast_retrieve_context.
  rewrite (retrieve_context_row svc
             {| CAGSystem.data_folder := folder;
                CAGSystem.collection := Some c |} c q k v eq_refl Hv).
  unfold contexts_of. rewrite Hrun.
  repeat split; try done; try lia.
  intros ->. destruct ctxs; [done|]. simpl in Hlen. lia.
Qed.

Lemma retrieve_context_fewer_than_k_witness :
  CAGSystem.retrieve_context demo_services
    {| CAGSystem.data_folder := lit "BellaTerra";
       CAGSystem.collection := Some [] |} (lit "anything") 5
  = Ok []
  /\ exists ctxs,
       CAGSystem.retrieve_context demo_services
         {| CAGSystem.data_folder := lit "BellaTerra";
            CAGSystem.collection := Some demo_collection |} (lit "anything") 5
       = Ok ctxs
       /\ length ctxs = 2%nat.
Proof.
  split; [vm_compute; reflexivity|].
  destruct (retrieve_context_fewer_than_k demo_services (lit "BellaTerra")
              demo_collection (lit "anything") 5 8%nat)
    as (ctxs & Hrun & _ & Hlen & _).
  - reflexivity.
  - unfold sourced, demo_collection.
    repeat constructor; vm_compute; eauto.
  - simpl. lia.
  - exists ctxs. split; [exact Hrun | exact Hlen].
Defined.

(** A retrieved entry without a source makes the whole call raise. *)
Lemma retrieve_context_missing_source {V} (svc : Services V)
    (self : CAGSystem.t V) (c : Chroma.Collection V) (q : str) (k : nat) (v : V)
    (e : Chroma.entry V) :
  CAGSystem.collection self = Some c -> embed svc q = Ok v ->
  e ∈ Chroma.nearest svc c v k -> entry_source e = None ->
  CAGSystem.retrieve_context svc self q k = Raise TypeError
  \/ CAGSystem.retrieve_context svc self q k = Raise KeyError.
Proof.
  intros Hc Hv He Hnone. rewrite (retrieve_context_row svc self c q k v Hc Hv).
  by apply (contexts_of_missing_acc _ e).
Qed.

(** C4: the code at the failing inputs. The default ["Unknown"] is taken
    only when the result has no [metadatas] at all; one retrieved entry
    stored without metadata makes [retrieve_context] raise [TypeError],
    one whose metadata has no ["source"] makes it raise [KeyError], and
    the entries that do have a source are lost with it. *)
Lemma retrieve_context_partial_metadata_raises :
  CAGSystem.source_of
    {| Chroma.res_documents := Some [[lit "Soup of the day"]];
       Chroma.res_metadatas := None |} 0
  = Ok (VStr (lit "Unknown"))
  /\ CAGSystem.retrieve_context demo_services
       {| CAGSystem.data_folder := lit "BellaTerra";
          CAGSystem.collection := Some lossy_collection |} (lit "anything") 5
     = Raise TypeError
  /\ CAGSystemFast.retrieve_context demo_services
       {| CAGSystemFast.data_folder := lit "BellaTerra";
          CAGSystemFast.collection := Some lossy_collection |} (lit "anything") 5
     = Raise TypeError
  /\ CAGSystem.retrieve_context demo_services
       {| CAGSystem.data_folder := lit "BellaTerra";
          CAGSystem.collection := Some unsourced_collection |} (lit "anything") 5
     = Raise KeyError.
Proof. repeat split; vm_compute; reflexivity. Qed.

(** ** Substrings *)

Lemma contains_refl (s : str) : contains s s.
Proof. exists [], []. by rewrite app_nil_r. Qed.

Lemma contains_app_l (a b x : str) : contains a x -> contains (a ++ b) x.
Proof.
  intros (pre & post & ->). exists pre, (post ++ b). by rewrite <- !app_assoc.
Qed.

Lemma contains_app_r (a b x : str) : contains b x -> contains (a ++ b) x.
Proof.
  intros (pre & post & ->). exists (a ++ pre), post. by rewrite <- !app_assoc.
Qed.

Lemma contains_trans (a b c : str) :
  contains a b -> contains b c -> contains a c.
Proof.
  intros (p1 & q1 & ->) (p2 & q2 & ->).
  exists (p1 ++ p2), (q2 ++ q1). by rewrite <- !app_assoc.
Qed.

Lemma contains_join (sep x : str) (parts : list str) :
  x ∈ parts -> contains (join sep parts) x.
Proof.
  induction parts as [|p parts IH]; [by intros ?%elem_of_nil|].
  intros [->|Hin]%elem_of_cons.
  - destruct parts; [apply contains_refl|]. apply contains_app_l, contains_refl.
  - destruct parts as [|p' parts]; [by apply elem_of_nil in Hin|].
    change (join sep (p :: p' :: parts))
      with (p ++ sep ++ join sep (p' :: parts)).
    by apply contains_app_r, contains_app_r, IH.
Qed.

Lemma format_context_blocks (ctxs : list context_entry) :
  CAGSystem.format_context ctxs = join (nl ++ nl) (map context_block ctxs).
Proof. reflexivity. Qed.

Lemma analysis_description_query {V} (self : CAGSystem.t V) (query : str)
    (ctxs : list context_entry) :
  contains (stage_description (analysis_input self query ctxs)) query.
Proof.
  unfold analysis_input, CAGSystem.context_analysis_task, lines.
  cbn [stage_description Crew.description].
  eapply contains_trans.
  - apply contains_join. apply elem_of_cons. left. reflexivity.
  - apply contains_app_r, contains_app_l, contains_refl.
Qed.

Lemma analysis_description_blocks {V} (self : CAGSystem.t V) (query : str)
    (ctxs : list context_entry) (ctx : context_entry) :
  ctx ∈ ctxs ->
  contains (stage_description (analysis_input self query ctxs))
           (context_block ctx).
Proof.
  intros Hin.
  unfold analysis_input, CAGSystem.context_analysis_task, lines.
  cbn [stage_description Crew.description].
  eapply contains_trans.
  - apply contains_join.
    do 3 (apply elem_of_cons; right). apply elem_of_cons. left. reflexivity.
  - apply contains_app_r. rewrite format_context_blocks.
    apply contains_join. apply list_elem_of_fmap. by exists ctx.
Qed.

Lemma generation_description_query (query out1 out2 : str) :
  contains (stage_description (generation_input query out1 out2)) query.
Proof.
  unfold generation_input, CAGSystem.generation_task, lines.
  cbn [stage_description Crew.description].
  eapply contains_trans.
  - apply contains_join. apply elem_of_cons. right.
    apply elem_of_cons. left. reflexivity.
  - apply contains_app_r, contains_app_l, contains_refl.
Qed.

(** ** The augmentation path *)

Lemma execute_analysis {V} (svc : Services V) (self : CAGSystem.t V)
    (query : str) (ctxs : list context_entry) (out1 : str) :
  agent_execute svc (analysis_input self query ctxs) = Ok out1 ->
  Crew.execute_task svc (CAGSystem.augment_heap self query ctxs)
    {| Crew.trace := []; Crew.outputs := ∅ |} 0
  = Ok {| Crew.trace := [(analysis_input self query ctxs, out1)];
          Crew.outputs := {[ 0%nat := out1 ]} |}.
Proof.
  intros H1. unfold Crew.execute_task.
  change (CAGSystem.augment_heap self query ctxs !! 0%nat)
    with (Some (CAGSystem.context_analysis_task self query
                  (CAGSystem.format_context ctxs))).
  cbn [not_none mbind outcome_bind].
  change (agent_execute svc _) with
    (agent_execute svc (analysis_input self query ctxs)).
  rewrite H1. reflexivity.
Qed.

Lemma execute_augmentation {V} (svc : Services V) (self : CAGSystem.t V)
    (query : str) (ctxs : list context_entry) (tr : list (StageInput * str))
    (out1 out2 : str) :
  agent_execute svc (augmentation_input out1) = Ok out2 ->
  Crew.execute_task svc (CAGSystem.augment_heap self query ctxs)
    {| Crew.trace := tr; Crew.outputs := {[ 0%nat := out1 ]} |} 1
  = Ok {| Crew.trace := tr ++ [(augmentation_input out1, out2)];
          Crew.outputs := <[ 1%nat := out2 ]> {[ 0%nat := out1 ]} |}.
Proof.
  intros H2. unfold Crew.execute_task.
  change (CAGSystem.augment_heap self query ctxs !! 1%nat)
    with (Some (CAGSystem.augmentation_task 0)).
  cbn [not_none mbind outcome_bind Crew.outputs Crew.trace].
  assert (Hctx : omap (fun c => ({[ 0%nat := out1 ]} : gmap nat str) !! c)
                      (Crew.context (CAGSystem.augmentation_task 0))
                 = [out1]).
  { cbn [Crew.context CAGSystem.augmentation_task omap list_omap].
    by rewrite lookup_singleton_eq. }
  rewrite Hctx.
  change (agent_execute svc _) with (agent_execute svc (augmentation_input out1)).
  rewrite H2. reflexivity.
Qed.

Lemma execute_generation {V} (svc : Services V) (self : CAGSystem.t V)
    (query : str) (ctxs : list context_entry) (tr : list (StageInput * str))
    (out1 out2 out3 : str) :
  agent_execute svc (generation_input query out1 out2) = Ok out3 ->
  Crew.execute_task svc (CAGSystem.augment_heap self query ctxs)
    {| Crew.trace := tr;
       Crew.outputs := <[ 1%nat := out2 ]> {[ 0%nat := out1 ]} |} 2
  = Ok {| Crew.trace := tr ++ [(generation_input query out1 out2, out3)];
          Crew.outputs :=
            <[ 2%nat := out3 ]> (<[ 1%nat := out2 ]> {[ 0%nat := out1 ]}) |}.
Proof.
  intros H3. unfold Crew.execute_task.
  change (CAGSystem.augment_heap self query ctxs !! 2%nat)
    with (Some (CAGSystem.generation_task query 0 1)).
  cbn [not_none mbind outcome_bind Crew.outputs Crew.trace].
  assert (Hctx : omap (fun c => (<[ 1%nat := out2 ]> {[ 0%nat := out1 ]}
                                  : gmap nat str) !! c)
                      (Crew.context (CAGSystem.generation_task query 0 1))
                 = [out1; out2]).
  { cbn [Crew.context CAGSystem.generation_task omap list_omap].
    rewrite lookup_insert_ne by done.
    by rewrite lookup_singleton_eq, lookup_insert_eq. }
  rewrite Hctx.
  change (agent_execute svc _)
    with (agent_execute svc (generation_input query out1 out2)).
  rewrite H3. reflexivity.
Qed.

(** C6: when the three calls of the model succeed, the crew makes exactly
    these three calls in this order: the analysis stage on the query and
    the source-prefixed chunks, with no earlier output; the augmentation
    stage on a fixed instruction and the analysis output alone; the
    generation stage on the query, the analysis output and the
    augmentation output; and the answer is the output of the generation
    stage. *)
Theorem augment_context_stages {V} (svc : Services V) (self : CAGSystem.t V)
    (query : str) (ctxs : list context_entry) (out1 out2 out3 : str) :
  agent_execute svc (analysis_input self query ctxs) = Ok out1 ->
  agent_execute svc (augmentation_input out1) = Ok out2 ->
  agent_execute svc (generation_input query out1 out2) = Ok out3 ->
  (exists outs,
      Crew.kickoff_run svc (CAGSystem.augment_heap self query ctxs)
                       (CAGSystem.augment_crew self)
      = Ok {| Crew.trace :=
                [ (analysis_input self query ctxs, out1);
                  (augmentation_input out1, out2);
                  (generation_input query out1 out2, out3) ];
              Crew.outputs := outs |})
  /\ CAGSystem.augment_context svc self query ctxs = Ok out3
  /\ contains (stage_description (analysis_input self query ctxs)) query
  /\ (forall ctx, ctx ∈ ctxs ->
        contains (stage_description (analysis_input self query ctxs))
                 (lit "From " ++ format_value (source ctx) ++ lit ":" ++ nl
                  ++ content ctx))
  /\ stage_context (analysis_input self query ctxs) = []
  /\ stage_context (augmentation_input out1) = [out1]
  /\ contains (stage_description (generation_input query out1 out2)) query
  /\ stage_context (generation_input query out1 out2) = [out1; out2].
Proof.
  intros H1 H2 H3.
  assert (Hrun :
    Crew.kickoff_run svc (CAGSystem.augment_heap self query ctxs)
                     (CAGSystem.augment_crew self)
    = Ok {| Crew.trace :=
              [ (analysis_input self query ctxs, out1);
                (augmentation_input out1, out2);
                (generation_input query out1 out2, out3) ];
            Crew.outputs :=
              <[ 2%nat := out3 ]> (<[ 1%nat := out2 ]> {[ 0%nat := out1 ]}) |}).
  { unfold Crew.kickoff_run.
    cbn [Crew.tasks CAGSystem.augment_crew].
    rewrite for_each_cons, (execute_analysis svc self query ctxs out1 H1).
    cbn [mbind outcome_bind].
    rewrite for_each_cons, (execute_augmentation svc self query ctxs _ out1 out2 H2).
    cbn [mbind outcome_bind].
    rewrite for_each_cons, (execute_generation svc self query ctxs _ out1 out2 out3 H3).
    reflexivity. }
  split; [eexists; exact Hrun|].
  split.
  { unfold CAGSystem.augment_context, Crew.kickoff. by rewrite Hrun. }
  split; [apply analysis_description_query|].
  split; [intros ctx Hctx; by apply analysis_description_blocks|].
  split; [done|]. split; [done|].
  split; [apply generation_description_query|done].
Qed.

Lemma augment_context_stages_witness :
  agent_execute demo_services
    (analysis_input demo_system demo_query demo_context) = Ok demo_analysis
  /\ CAGSystem.augment_context demo_services demo_system demo_query demo_context
     = Ok demo_generation
  /\ contains demo_generation demo_analysis
  /\ contains demo_generation demo_augmentation.
Proof.
  split; [vm_compute; reflexivity|].
  split.
  - apply (augment_context_stages demo_services demo_system demo_query
             demo_context demo_analysis demo_augmentation demo_generation);
      vm_compute; reflexivity.
  - unfold demo_generation. split.
    + apply contains_app_r, contains_app_l, contains_refl.
    + apply contains_app_r, contains_app_r, contains_refl.
Defined.

(** ** The two answer paths *)

Lemma for_each_contexts_length {V} (row : list (Chroma.entry V)) :
  forall acc ctxs,
    for_each (fun contexts e => x ← context_of e; Ok (contexts ++ [x]))
             row acc = Ok ctxs ->
    length ctxs = (length acc + length row)%nat.
Proof.
  induction row as [|e row IH]; intros acc ctxs Hrun.
  - simpl in Hrun. injection Hrun as <-. simpl. lia.
  - rewrite for_each_cons in Hrun.
    destruct (context_of e) as [x| |]; [|done|done].
    cbn [mbind outcome_bind] in Hrun.
    apply IH in Hrun. rewrite length_app in Hrun. simpl in *. lia.
Qed.

(** A successful retrieval has a collection and a reachable embedding
    service behind it, and returns at most [k] contexts. *)
Lemma retrieve_context_ok {V} (svc : Services V) (self : CAGSystem.t V)
    (q : str) (k : nat) (ctxs : list context_entry) :
  CAGSystem.retrieve_context svc self q k = Ok ctxs ->
  exists c v,
    CAGSystem.collection self = Some c
    /\ embed svc q = Ok v
    /\ contexts_of (Chroma.nearest svc c v k) = Ok ctxs
    /\ (length ctxs <= k)%nat.
Proof.
  intros Hrun.
  destruct (CAGSystem.collection self) as [c|] eqn:Hc;
    [|unfold CAGSystem.retrieve_context in Hrun; by rewrite Hc in Hrun].
  destruct (embed svc q) as [v| |] eqn:Hv;
    [| unfold CAGSystem.retrieve_context in Hrun;
       rewrite Hc in Hrun; simpl in Hrun;
       rewrite query_single, Hv in Hrun; done ..].
  rewrite (retrieve_context_row svc self c q k v Hc Hv) in Hrun.
  exists c, v. repeat split; try done.
  apply for_each_contexts_length in Hrun.
  rewrite nearest_length in Hrun. simpl in Hrun. lia.
Qed.

(** When retrieval fails, both paths fail with the same error. *)
Lemma process_query_retrieval_raises {V} (svc : Services V) (folder : str)
    (c : option (Chroma.Collection V)) (q : str) (e : exn) :
  CAGSystem.retrieve_context svc
    {| CAGSystem.data_folder := folder; CAGSystem.collection := c |} q 5
  = Raise e ->
  CAGSystem.process_query svc
    {| CAGSystem.data_folder := folder; CAGSystem.collection := c |} q
  = Raise e
  /\ CAGSystemFast.process_query svc
       {| CAGSystemFast.data_folder := folder;
          CAGSystemFast.collection := c |} q
     = Raise e.
Proof.
  intros Hrun. unfold CAGSystem.process_query, CAGSystemFast.process_query.
  rewrite fast_retrieve_context, Hrun. done.
Qed.

(** When retrieval and generation succeed, both paths return the record. *)
Lemma process_query_ok {V} (svc : Services V) (folder : str)
    (c : option (Chroma.Collection V)) (q : str) (ctxs : list context_entry) :
  CAGSystem.retrieve_context svc
    {| CAGSystem.data_folder := folder; CAGSystem.collection := c |} q 5
  = Ok ctxs ->
  (forall a1,
      CAGSystem.augment_context svc
        {| CAGSystem.data_folder := folder; CAGSystem.collection := c |} q ctxs
      = Ok a1 ->
      CAGSystem.process_query svc
        {| CAGSystem.data_folder := folder; CAGSystem.collection := c |} q
      = Ok {| query := q; initial_context := ctxs; augmented_response := a1 |})
  /\ (forall a2,
        chat_completion svc (fast_request q ctxs) = Ok a2 ->
        CAGSystemFast.process_query svc
          {| CAGSystemFast.data_folder := folder;
             CAGSystemFast.collection := c |} q
        = Ok {| query := q; initial_context := ctxs;
                augmented_response := a2 |}).
Proof.
  intros Hrun. split.
  - intros a1 Ha. unfold CAGSystem.process_query. rewrite Hrun.
    cbn [mbind outcome_bind]. rewrite Ha. done.
  - intros a2 Ha. unfold CAGSystemFast.process_query.
    rewrite fast_retrieve_context, Hrun. cbn [mbind outcome_bind].
    unfold fast_request in Ha. rewrite Ha. done.
Qed.

(** C5: for every query on which retrieval and the two generative calls
    succeed, both [process_query] return a record with the query as given,
    the contexts that [retrieve_context] returns for [k = 5] on the same
    collection (the same in both modules, at most five) and the answer of
    the path. *)
Theorem process_query_interchangeable {V} (svc : Services V) (folder : str)
    (c : option (Chroma.Collection V)) (q : str) (ctxs : list context_entry)
    (a1 a2 : str) :
  CAGSystem.retrieve_context svc
    {| CAGSystem.data_folder := folder; CAGSystem.collection := c |} q 5
  = Ok ctxs ->
  CAGSystem.augment_context svc
    {| CAGSystem.data_folder := folder; CAGSystem.collection := c |} q ctxs
  = Ok a1 ->
  chat_completion svc (fast_request q ctxs) = Ok a2 ->
  CAGSystem.process_query svc
    {| CAGSystem.data_folder := folder; CAGSystem.collection := c |} q
  = Ok {| query := q; initial_context := ctxs; augmented_response := a1 |}
  /\ CAGSystemFast.process_query svc
       {| CAGSystemFast.data_folder := folder;
          CAGSystemFast.collection := c |} q
     = Ok {| query := q; initial_context := ctxs; augmented_response := a2 |}
  /\ CAGSystemFast.retrieve_context svc
       {| CAGSystemFast.data_folder := folder;
          CAGSystemFast.collection := c |} q 5
     = Ok ctxs
  /\ (length ctxs <= 5)%nat.
Proof.
  intros Hrun Ha1 Ha2.
  destruct (process_query_ok svc folder c q ctxs Hrun) as [Hfull Hfast].
  split; [by apply Hfull|]. split; [by apply Hfast|].
  split; [by rewrite fast_retrieve_context|].
  by destruct (retrieve_context_ok svc _ q 5%nat ctxs Hrun) as (? & ? & _ & _ & _ & ?).
Qed.

Lemma process_query_interchangeable_witness :
  exists a1 a2,
    CAGSystem.process_query demo_services demo_system demo_query
    = Ok {| query := demo_query; initial_context := demo_context ++
              [ {| content := lit "Penne 9"; source := VStr (lit "pasta.md") |} ];
            augmented_response := a1 |}
    /\ CAGSystemFast.process_query demo_services demo_fast_system demo_query
       = Ok {| query := demo_query; initial_context := demo_context ++
                 [ {| content := lit "Penne 9";
                      source := VStr (lit "pasta.md") |} ];
               augmented_response := a2 |}.
Proof.
  eexists _, _.
  refine (let H := process_query_interchangeable demo_services
                     (lit "BellaTerra") (Some demo_collection) demo_query
                     _ _ _ _ _ _ in conj (proj1 H) (proj1 (proj2 H)));
    vm_compute; reflexivity.
Defined.

(** ** Failures of [process_query] *)

Lemma retrieve_context_unreachable {V} (svc : Services V) (folder : str)
    (c : Chroma.Collection V) (q : str) (k : nat) (e : exn) :
  embed svc q = Raise e ->
  CAGSystem.retrieve_context svc
    {| CAGSystem.data_folder := folder; CAGSystem.collection := Some c |} q k
  = Raise e.
Proof.
  intros He. unfold CAGSystem.retrieve_context. simpl.
  by rewrite query_single, He.
Qed.

Lemma validate_spec (body_query : str) (sid : option str) :
  (1 <= len body_query <= 500 ->
   Api.validate body_query sid
   = Ok {| Api.request_query := body_query; Api.session_id := sid |})
  /\ (len body_query < 1 \/ 500 < len body_query ->
      Api.validate body_query sid = Raise ValidationError).
Proof.
  unfold Api.validate. split; intros H.
  - destruct (Z.leb_spec 1 (len body_query)),
             (Z.leb_spec (len body_query) 500); simpl; try done; lia.
  - destruct (Z.leb_spec 1 (len body_query)),
             (Z.leb_spec (len body_query) 500); simpl; try done; lia.
Qed.

Lemma empty_is_no_command :
  ([] ∉ [lit "quit"; lit "exit"; lit "q"]) /\ [] <> lit "help".
Proof.
  split; [|discriminate].
  intros Hin. apply list_elem_of_In in Hin.
  destruct Hin as [H|[H|[H|[]]]]; discriminate H.
Qed.

(** C8, as amended: [process_query] does not look at the query. When the
    embedding service behind the index store fails on the query, both
    paths fail with that error; when [collection] is [None], both fail with
    [AttributeError]. The empty query is refused by the callers that check
    it: the request model of [POST /query] and [POST /query/async] (status
    422, no job created) and the command line, which skips a line that is
    empty after [strip()]. A caller that does not check it, the
    [/ws/query] route or a direct call, hands it to [process_query], where
    it is processed like any other query: when retrieval and generation
    succeed the record is returned, with the empty query in it, and the
    websocket sends the answer. *)
Theorem process_query_failures {V} (svc : Services V) (folder : str) :
  (forall c q e,
      embed svc q = Raise e ->
      CAGSystem.process_query svc
        {| CAGSystem.data_folder := folder; CAGSystem.collection := Some c |} q
      = Raise e
      /\ CAGSystemFast.process_query svc
           {| CAGSystemFast.data_folder := folder;
              CAGSystemFast.collection := Some c |} q
         = Raise e)
  /\ (forall q,
        CAGSystem.process_query svc
          {| CAGSystem.data_folder := folder; CAGSystem.collection := None |} q
        = Raise AttributeError
        /\ CAGSystemFast.process_query svc
             {| CAGSystemFast.data_folder := folder;
                CAGSystemFast.collection := None |} q
           = Raise AttributeError)
  /\ (forall cag key sid jobs uuid4,
        Api.validate [] sid = Raise ValidationError
        /\ Api.process_query svc cag key [] sid = Api.HTTPException 422
        /\ Routes.process_query_async cag jobs uuid4 [] sid
           = (Routes.Rejected 422, jobs, []))
  /\ (forall cag line rest,
        Cli.strip line = [] ->
        Cli.loop svc cag (line :: rest) = Cli.loop svc cag rest)
  /\ (forall c ctxs a1 a2,
        CAGSystem.retrieve_context svc
          {| CAGSystem.data_folder := folder;
             CAGSystem.collection := Some c |} [] 5 = Ok ctxs ->
        CAGSystem.augment_context svc
          {| CAGSystem.data_folder := folder;
             CAGSystem.collection := Some c |} [] ctxs = Ok a1 ->
        chat_completion svc (fast_request [] ctxs) = Ok a2 ->
        CAGSystem.process_query svc
          {| CAGSystem.data_folder := folder;
             CAGSystem.collection := Some c |} []
        = Ok {| query := []; initial_context := ctxs;
                augmented_response := a1 |}
        /\ CAGSystemFast.process_query svc
             {| CAGSystemFast.data_folder := folder;
                CAGSystemFast.collection := Some c |} []
           = Ok {| query := []; initial_context := ctxs;
                   augmented_response := a2 |})
  /\ (forall message cag res,
        CAGSystem.process_query svc cag [] = Ok res ->
        Routes.websocket_turn svc message (Some cag) []
        = [ Routes.WsStatus (lit "Processing query...");
            Routes.WsComplete (augmented_response res) ]).
Proof.
  split; [|split; [|split; [|split; [|split]]]].
  - intros c q e He. apply process_query_retrieval_raises.
    by apply retrieve_context_unreachable.
  - intros q. by apply process_query_retrieval_raises.
  - intros cag key sid jobs uuid4. done.
  - intros cag line rest Hstrip. cbn [Cli.loop]. cbv zeta. rewrite Hstrip.
    change (Cli.lower []) with (@nil ascii).
    destruct empty_is_no_command as [Hquit Hhelp].
    rewrite (bool_decide_eq_false_2 _ Hquit).
    rewrite (bool_decide_eq_false_2 _ Hhelp).
    by rewrite bool_decide_eq_true_2.
  - intros c ctxs a1 a2 Hrun Ha1 Ha2.
    destruct (process_query_ok svc folder (Some c) [] ctxs Hrun) as [Hfull Hfast].
    split; [by apply Hfull | by apply Hfast].
  - intros message cag res Hres. unfold Routes.websocket_turn. by rewrite Hres.
Qed.

Lemma process_query_failures_witness :
  (embed demo_services_down demo_query
   = Raise (ServiceError (lit "connection refused"))
   /\ CAGSystem.process_query demo_services_down demo_system demo_query
      = Raise (ServiceError (lit "connection refused"))
   /\ CAGSystemFast.process_query demo_services_down demo_fast_system
        demo_query
      = Raise (ServiceError (lit "connection refused")))
  /\ (Cli.strip (lit "   ") = []
      /\ Cli.loop demo_services demo_system [lit "   "; lit "q"]
         = Cli.loop demo_services demo_system [lit "q"])
  /\ (exists ctxs a1 a2,
         CAGSystem.retrieve_context demo_services demo_system [] 5 = Ok ctxs
         /\ CAGSystem.process_query demo_services demo_system []
            = Ok {| query := []; initial_context := ctxs;
                    augmented_response := a1 |}
         /\ CAGSystemFast.process_query demo_services demo_fast_system []
            = Ok {| query := []; initial_context := ctxs;
                    augmented_response := a2 |}
         /\ Routes.websocket_turn demo_services demo_message
              (Some demo_system) []
            = [ Routes.WsStatus (lit "Processing query...");
                Routes.WsComplete a1 ]).
Proof.
  pose proof (process_query_failures demo_services_down (lit "BellaTerra"))
    as (Hdown & _).
  pose proof (process_query_failures demo_services (lit "BellaTerra"))
    as (_ & _ & _ & Hcli & Hempty & Hws).
  split; [|split].
  - split; [reflexivity|].
    apply (Hdown demo_collection demo_query
             (ServiceError (lit "connection refused")) eq_refl).
  - split; [vm_compute; reflexivity|].
    apply Hcli. vm_compute. reflexivity.
  - eexists _, _, _.
    eassert (Hret : CAGSystem.retrieve_context demo_services demo_system [] 5
                    = Ok _) by (vm_compute; reflexivity).
    eassert (Ha1 : CAGSystem.augment_context demo_services demo_system [] _
                   = Ok _) by (vm_compute; reflexivity).
    eassert (Ha2 : chat_completion demo_services (fast_request [] _) = Ok _)
      by (vm_compute; reflexivity).
    destruct (Hempty demo_collection _ _ _ Hret Ha1 Ha2) as [Hfull Hfast].
    split; [exact Hret|]. split; [exact Hfull|]. split; [exact Hfast|].
    exact (Hws demo_message demo_system _ Hfull).
Defined.

(** C8, as stated, fails: handed the empty query, both [process_query]
    return a record with an answer, built from the two chunks retrieved
    for it, and raise nothing. *)
Lemma process_query_empty_query_answers :
  exists r1 r2,
    CAGSystem.process_query demo_services demo_system [] = Ok r1
    /\ CAGSystemFast.process_query demo_services demo_fast_system [] = Ok r2
    /\ query r1 = [] /\ query r2 = []
    /\ length (initial_context r1) = 2%nat
    /\ length (initial_context r2) = 2%nat
    /\ augmented_response r1 <> [] /\ augmented_response r2 <> [].
Proof.
  eexists _, _. split; [vm_compute; reflexivity|].
  split; [vm_compute; reflexivity|].
  repeat split; done.
Qed.

(** ** What ingestion leaves in the store *)

Lemma chunk_metadata_source (filename : str) (j : nat) :
  chunk_metadata filename j !! lit "source" = Some (VStr filename).
Proof. unfold chunk_metadata. by rewrite lookup_insert_eq. Qed.

Lemma batch_metadatas (b : batch) :
  aligned b -> metadatas b = map (fun t => snd (fst t)) (triples b).
Proof.
  intros [Hm Hi]. unfold triples.
  rewrite <- (map_map fst snd), fst_zip by (rewrite length_zip_with; lia).
  symmetry. apply snd_zip. lia.
Qed.

(** After the first start every stored entry carries its file name as
    source, so the retriever does not raise on what ingestion stored. *)
Lemma setup_vectorstore_sourced {V} (svc : Services V) (folder : str)
    (c : Chroma.Collection V) :
  CAGSystem.setup_vectorstore svc folder [] = Ok c -> sourced c.
Proof.
  unfold CAGSystem.setup_vectorstore. simpl.
  destruct (load_documents_triples svc folder (listdir svc folder))
    as (b & Hrun & Hal & Htr).
  rewrite Hrun. simpl. case_bool_decide; [|intros [= <-]; constructor].
  unfold Chroma.add. destruct (Chroma.embed_all svc (documents b)); [|done..].
  simpl. intros [= <-]. apply Forall_forall. intros e He.
  apply elem_of_zip_with in He as ([i d] & [m v] & -> & _ & Hm).
  apply elem_of_zip_l in Hm. rewrite (batch_metadatas b Hal), Htr in Hm.
  apply list_elem_of_fmap in Hm as (t & -> & Ht).
  apply (elem_of_listing_triples svc folder) in Ht as (fn & _ & Ht).
  apply elem_of_file_triples in Ht as (_ & j & chunk & _ & ->).
  unfold entry_source. simpl. rewrite chunk_metadata_source. by eexists.
Qed.

(** * Further properties of the code *)

(** ** The chunker *)

(** X1: with [0 <= overlap < chunk_size] two consecutive chunks share the
    overlap: what is left of a chunk after its first
    [chunk_size - overlap] characters is the beginning, of at most
    [overlap] characters, of the next chunk. *)
Theorem split_text_consecutive_overlap (text : str) (chunk_size overlap : Z)
    (fuel : nat) :
  0 <= overlap < chunk_size -> (length text < fuel)%nat ->
  exists chunks,
    CAGSystem._split_text fuel text chunk_size overlap = Ok chunks
    /\ forall i c c',
         chunks !! i = Some c -> chunks !! S i = Some c' ->
         slice c (chunk_size - overlap) (len c) = slice c' 0 overlap.
Proof.
  intros Hov Hfuel. eexists. split; [apply split_text_windows; lia|].
  intros i c c' Hc Hc'.
  rewrite list_lookup_fmap in Hc, Hc'.
  destruct (seq 0 (window_count text chunk_size overlap) !! i) as [j|] eqn:Hj;
    [|done].
  destruct (seq 0 (window_count text chunk_size overlap) !! S i) as [j'|] eqn:Hj';
    [|done].
  apply lookup_seq in Hj as [-> _]. apply lookup_seq in Hj' as [-> _].
  simpl in Hc, Hc'. injection Hc as <-. injection Hc' as <-.
  rewrite slice_from, slice_between by lia.
  rewrite !window_take_drop by lia.
  rewrite drop_0, Z.sub_0_r, skipn_firstn_comm, drop_drop, take_take.
  assert (0 <= Z.of_nat i * (chunk_size - overlap)) by nia.
  replace (Z.of_nat (S i) * (chunk_size - overlap))
    with (Z.of_nat i * (chunk_size - overlap) + (chunk_size - overlap)) by lia.
  f_equal; [lia|]. f_equal. lia.
Qed.

Lemma split_text_consecutive_overlap_witness :
  exists chunks,
    CAGSystem._split_text 11 (lit "abcdefghij") 5 3 = Ok chunks
    /\ (chunks !! 2%nat = Some (lit "efghi") ->
        chunks !! 3%nat = Some (lit "ghij") ->
        slice (lit "efghi") (5 - 3) (len (lit "efghi"))
        = slice (lit "ghij") 0 3).
Proof.
  destruct (split_text_consecutive_overlap (lit "abcdefghij") 5 3 11)
    as (chunks & Hrun & Hshare); [lia | simpl; lia |].
  exists chunks. split; [exact Hrun|]. apply Hshare.
Defined.

Lemma contains_slice (text : str) (a b : Z) : contains text (slice text a b).
Proof.
  unfold slice. set (n := Z.to_nat (_ - _)). set (lo := Z.to_nat _).
  exists (take lo text), (drop n (drop lo text)).
  by rewrite !take_drop.
Qed.

(** X2: with [overlap < chunk_size] and [chunk_size >= 0] the call returns
    [ceil(len(text) / (chunk_size - overlap))] chunks; chunk [i] is
    [text[i*step : i*step + chunk_size]] for [step = chunk_size - overlap],
    so it occurs in the text and has at most [chunk_size] characters. *)
Theorem split_text_chunk_count (text : str) (chunk_size overlap : Z)
    (fuel : nat) :
  0 <= chunk_size -> overlap < chunk_size -> (length text < fuel)%nat ->
  exists chunks,
    CAGSystem._split_text fuel text chunk_size overlap = Ok chunks
    /\ len chunks
       = (len text + (chunk_size - overlap) - 1) / (chunk_size - overlap)
    /\ (chunks = [] <-> text = [])
    /\ forall i c,
         chunks !! i = Some c ->
         c = slice text (Z.of_nat i * (chunk_size - overlap))
                   (Z.of_nat i * (chunk_size - overlap) + chunk_size)
         /\ len c <= chunk_size
         /\ contains text c.
Proof.
  intros Hcs Hov Hfuel. eexists. split; [apply split_text_windows; lia|].
  destruct (window_count_spec text chunk_size overlap ltac:(lia))
    as (Hend & Hin & Hle).
  split; [|split].
  - unfold len at 1. rewrite length_map, length_seq. unfold window_count.
    apply Z2Nat.id. apply Z.div_pos; pose proof (len_nonneg text); lia.
  - split.
    + intros Hnil. apply (f_equal length) in Hnil.
      rewrite length_map, length_seq in Hnil. simpl in Hnil.
      rewrite Hnil in Hend. destruct text; [done|].
      unfold len in Hend. simpl in Hend. lia.
    + intros ->. destruct (window_count [] chunk_size overlap) eqn:Hn; [done|].
      specialize (Hin 0%nat ltac:(lia)). unfold len in Hin. simpl in Hin. lia.
  - intros i c Hc. rewrite list_lookup_fmap in Hc.
    destruct (seq 0 (window_count text chunk_size overlap) !! i) as [j|] eqn:Hj;
      [|done].
    apply lookup_seq in Hj as [-> _]. simpl in Hc. injection Hc as <-.
    split; [done|]. split; [|apply contains_slice].
    rewrite window_len by lia. lia.
Qed.

Lemma split_text_chunk_count_witness :
  exists chunks,
    CAGSystem._split_text 1701 (replicate 1700 "x"%char) 1000 200 = Ok chunks
    /\ len chunks = (1700 + (1000 - 200) - 1) / (1000 - 200).
Proof.
  destruct (split_text_chunk_count (replicate 1700 "x"%char) 1000 200 1701)
    as (chunks & Hrun & Hlen & _); [lia | lia | |].
  - rewrite length_replicate. lia.
  - exists chunks. split; [exact Hrun|].
    rewrite Hlen. unfold len. by rewrite length_replicate.
Defined.

(** X3: a text that is not empty and has at most
    [chunk_size - overlap] characters, with [overlap >= 0], is returned as
    one chunk, the text itself; for the loader this is every text of at
    most 800 characters. *)
Theorem split_text_short_text (text : str) (chunk_size overlap : Z)
    (fuel : nat) :
  text <> [] -> 0 <= overlap -> len text <= chunk_size - overlap ->
  (length text < fuel)%nat ->
  CAGSystem._split_text fuel text chunk_size overlap = Ok [text].
Proof.
  intros Hne Hov Hlen Hfuel.
  assert (0 < len text).
  { destruct text; [done|]. unfold len. simpl. lia. }
  rewrite split_text_windows by lia.
  assert (Hn : window_count text chunk_size overlap = 1%nat).
  { unfold window_count.
    replace ((len text + (chunk_size - overlap) - 1) / (chunk_size - overlap))
      with 1; [done|].
    apply Z.div_unique with (r := len text - 1); lia. }
  rewrite Hn. simpl. rewrite window_take_drop by lia. simpl.
  rewrite drop_0, take_ge; [done|]. unfold len in *. lia.
Qed.

Lemma split_text_short_text_witness :
  lit "Penne 9" <> []
  /\ CAGSystem._split_text 8 (lit "Penne 9") 1000 200 = Ok [lit "Penne 9"].
Proof.
  split; [discriminate|].
  apply split_text_short_text; [discriminate | lia | vm_compute; discriminate
                               | simpl; lia].
Defined.

(** ** The first start: [setup_vectorstore] on an empty collection *)

Lemma embed_all_acc {V} (svc : Services V) (vec : str -> V) (texts : list str) :
  (forall t, t ∈ texts -> embed svc t = Ok (vec t)) ->
  forall acc,
    for_each (fun vs t => v ← embed svc t; Ok (vs ++ [v])) texts acc
    = Ok (acc ++ map vec texts).
Proof.
  induction texts as [|t texts IH]; intros Hvec acc.
  - simpl. by rewrite app_nil_r.
  - rewrite for_each_cons, Hvec by (apply elem_of_cons; by left).
    cbn [mbind outcome_bind]. rewrite IH.
    + by rewrite <- app_assoc.
    + intros t' Ht'. apply Hvec. apply elem_of_cons. by right.
Qed.

Lemma embed_all_length_acc {V} (svc : Services V) (texts : list str) :
  forall acc vs,
    for_each (fun vs t => v ← embed svc t; Ok (vs ++ [v])) texts acc = Ok vs ->
    length vs = (length acc + length texts)%nat.
Proof.
  induction texts as [|t texts IH]; intros acc vs Hrun.
  - simpl in Hrun. injection Hrun as <-. simpl. lia.
  - rewrite for_each_cons in Hrun.
    destruct (embed svc t); [|done..]. cbn [mbind outcome_bind] in Hrun.
    apply IH in Hrun. rewrite length_app in Hrun. simpl in *. lia.
Qed.

Lemma embed_all_length {V} (svc : Services V) (texts : list str) (vs : list V) :
  Chroma.embed_all svc texts = Ok vs -> length vs = length texts.
Proof. intros H%embed_all_length_acc. simpl in H. lia. Qed.

Lemma embed_all_down {V} (svc : Services V) (texts : list str) (e : exn) :
  (forall t, embed svc t = Raise e) -> texts <> [] ->
  Chroma.embed_all svc texts = Raise e.
Proof.
  intros Hdown Hne. destruct texts as [|t texts]; [done|].
  unfold Chroma.embed_all. by rewrite for_each_cons, Hdown.
Qed.

(** The entries that [add] builds from the three lists are the triples,
    each with its embedding. *)
Lemma add_entries {V} (docs : list str) :
  forall (metas : list (gmap str pyval)) (idents : list str) (vs : list V),
    length docs = length metas -> length docs = length idents ->
    zip_with (fun '(i, d) '(m, v) =>
                {| Chroma.entry_id := i; Chroma.entry_document := d;
                   Chroma.entry_metadata := Some m;
                   Chroma.entry_embedding := v |})
             (zip idents docs) (zip metas vs)
    = zip_with stored (zip (zip docs metas) idents) vs.
Proof.
  induction docs as [|d docs IH]; intros [|m metas] [|i idents] [|v vs] Hm Hi;
    try done.
  simpl. f_equal. apply IH; simpl in *; lia.
Qed.

Lemma aligned_documents (b : batch) :
  aligned b -> documents b = map (fun t => t.1.1) (triples b).
Proof.
  intros [Hm Hi]. unfold triples.
  rewrite <- (map_map fst fst), fst_zip by (rewrite length_zip_with; lia).
  symmetry. apply fst_zip. lia.
Qed.

(** What the first start does, in terms of the triples of the listing. *)
Lemma setup_vectorstore_first {V} (svc : Services V) (folder : str) :
  let ts := listing_triples svc folder (listdir svc folder) in
  CAGSystem.setup_vectorstore svc folder []
  = if bool_decide (ts <> []) then
      vs ← Chroma.embed_all svc (map (fun t => t.1.1) ts);
      Ok (zip_with stored ts vs)
    else Ok [].
Proof.
  intros ts. unfold CAGSystem.setup_vectorstore. simpl.
  destruct (load_documents_triples svc folder (listdir svc folder))
    as (b & Hrun & Hal & Htr).
  rewrite Hrun. cbn [mbind outcome_bind].
  fold ts in Htr. rewrite (aligned_documents b Hal), Htr.
  assert (Hdec : bool_decide (map (fun t : str * gmap str pyval * str => t.1.1) ts
                              <> [])
                 = bool_decide (ts <> [])).
  { apply bool_decide_ext. by destruct ts. }
  rewrite Hdec. destruct (bool_decide (ts <> [])); [|done].
  unfold Chroma.add.
  rewrite <- Htr, <- (aligned_documents b Hal).
  destruct (Chroma.embed_all svc (documents b)) as [vs| |]; [|done..].
  cbn [mbind outcome_bind]. simpl app.
  destruct Hal as [Hm Hi]. rewrite add_entries by done. done.
Qed.

(** X4: when no file of the listing whose name ends in [.md] has any text,
    the first start leaves the collection empty and succeeds whatever the
    state of the embedding service: [add] is not called. *)
Theorem setup_vectorstore_nothing_to_load {V} (svc : Services V)
    (folder : str) :
  (forall filename,
      filename ∈ listdir svc folder ->
      endswith filename (lit ".md") = true ->
      file_text svc folder filename = []) ->
  CAGSystem.setup_vectorstore svc folder [] = Ok []
  /\ CAGSystemFast.setup_vectorstore svc folder [] = Ok []
  /\ CAGSystem.__init__ svc folder []
     = Ok {| CAGSystem.data_folder := folder;
             CAGSystem.collection := Some [] |}.
Proof.
  intros Hempty.
  assert (Hts : listing_triples svc folder (listdir svc folder) = []).
  { unfold listing_triples.
    induction (listdir svc folder) as [|fn l IH]; [done|].
    simpl. rewrite IH.
    - rewrite app_nil_r. unfold file_triples.
      destruct (endswith fn (lit ".md")) eqn:Hmd; [|done].
      unfold file_chunks. rewrite (Hempty fn); [done| |done].
      apply elem_of_cons. by left.
    - intros fn' Hin. apply Hempty. apply elem_of_cons. by right. }
  assert (Hrun : CAGSystem.setup_vectorstore svc folder [] = Ok []).
  { rewrite setup_vectorstore_first. cbv zeta. rewrite Hts. done. }
  split; [exact Hrun|]. split; [exact Hrun|].
  unfold CAGSystem.__init__. by rewrite Hrun.
Qed.

Lemma setup_vectorstore_nothing_to_load_witness :
  CAGSystem.setup_vectorstore bare_services (lit "BellaTerra") [] = Ok []
  /\ embed bare_services (lit "not a menu")
     = Raise (ServiceError (lit "connection refused")).
Proof.
  split; [|reflexivity].
  apply (setup_vectorstore_nothing_to_load bare_services (lit "BellaTerra")).
  intros filename Hin Hmd. simpl in Hin.
  apply elem_of_cons in Hin as [->|Hin]; [by vm_compute in Hmd|].
  apply elem_of_cons in Hin as [->|Hin]; [by vm_compute|].
  by apply elem_of_nil in Hin.
Defined.

Lemma zip_with_stored_map {V} (vec : str -> V)
    (ts : list (str * gmap str pyval * str)) :
  zip_with stored ts (map vec (map (fun t => t.1.1) ts))
  = map (fun t => stored t (vec t.1.1)) ts.
Proof. induction ts as [|t ts IH]; [done|]. simpl. by rewrite IH. Qed.

Lemma zip_with_stored_ids {V : Type} (ts : list (str * gmap str pyval * str))
    (vs : list V) :
  length vs = length ts ->
  map Chroma.entry_id (zip_with stored ts vs) = map snd ts.
Proof.
  revert vs. induction ts as [|t ts IH]; intros [|v vs] Hlen; try done.
  simpl. f_equal. apply IH. simpl in Hlen. lia.
Qed.

(** A file with text has a first chunk. *)
Lemma file_triples_nonempty {V} (svc : Services V) (folder filename : str) :
  endswith filename (lit ".md") = true ->
  file_text svc folder filename <> [] ->
  file_triples svc folder filename <> [].
Proof.
  intros Hmd Htext. unfold file_triples, file_chunks. rewrite Hmd.
  destruct (window_count_spec (file_text svc folder filename) 1000 200
              ltac:(lia)) as (Hend & _ & _).
  destruct (window_count (file_text svc folder filename) 1000 200) eqn:Hn;
    [|done].
  destruct (file_text svc folder filename); [done|].
  unfold len in Hend. simpl in Hend. lia.
Qed.

Lemma listing_triples_nonempty {V} (svc : Services V) (folder filename : str)
    (listing : list str) :
  filename ∈ listing ->
  endswith filename (lit ".md") = true ->
  file_text svc folder filename <> [] ->
  listing_triples svc folder listing <> [].
Proof.
  intros Hin Hmd Htext Hnil.
  pose proof (file_triples_nonempty svc folder filename Hmd Htext) as Hne.
  destruct (file_triples svc folder filename) as [|t ts] eqn:Hft; [done|].
  assert (Ht : t ∈ listing_triples svc folder listing).
  { apply elem_of_listing_triples. exists filename. split; [done|].
    rewrite Hft. apply elem_of_cons. by left. }
  rewrite Hnil in Ht. by apply elem_of_nil in Ht.
Qed.

(** The entries stored by the first start, one by one. *)
Lemma setup_vectorstore_entries {V} (svc : Services V) (folder : str)
    (c : Chroma.Collection V) :
  CAGSystem.setup_vectorstore svc folder [] = Ok c ->
  exists vs,
    c = zip_with stored (listing_triples svc folder (listdir svc folder)) vs
    /\ length vs
       = length (listing_triples svc folder (listdir svc folder)).
Proof.
  rewrite setup_vectorstore_first. cbv zeta. case_bool_decide as Hts.
  - destruct (Chroma.embed_all svc _) as [vs| |] eqn:Hvs; [|done..].
    cbn [mbind outcome_bind]. intros [= <-]. exists vs. split; [done|].
    apply embed_all_length in Hvs. by rewrite length_map in Hvs.
  - intros [= <-]. exists [].
    destruct (listing_triples svc folder (listdir svc folder)); [done|].
    first [done | exfalso; by apply Hts].
Qed.

Lemma stored_entry_origin {V} (svc : Services V) (folder : str)
    (vs : list V) (entry : Chroma.entry V) :
  entry ∈ zip_with stored (listing_triples svc folder (listdir svc folder)) vs ->
  exists filename j,
    filename ∈ listdir svc folder
    /\ endswith filename (lit ".md") = true
    /\ file_chunks svc folder filename !! j
       = Some (Chroma.entry_document entry)
    /\ Chroma.entry_metadata entry = Some (chunk_metadata filename j)
    /\ Chroma.entry_id entry = chunk_id filename j.
Proof.
  intros (t & v & -> & Ht & _)%elem_of_zip_with.
  apply elem_of_listing_triples in Ht as (fn & Hfn & Ht).
  apply elem_of_file_triples in Ht as (Hmd & j & chunk & Hj & ->).
  by exists fn, j.
Qed.

(** *** The loader when file access can fail *)

Lemma for_each_ext_in {A S} (f g : S -> A -> outcome S) (xs : list A) :
  (forall s x, x ∈ xs -> f s x = g s x) ->
  forall s, for_each f xs s = for_each g xs s.
Proof.
  induction xs as [|x xs IH]; intros Hfg s; [done|].
  rewrite !for_each_cons, Hfg by (apply elem_of_cons; by left).
  destruct (g s x); [|done..]. cbn [mbind outcome_bind].
  apply IH. intros s' x' Hx'. apply Hfg. apply elem_of_cons. by right.
Qed.

Lemma for_each_ok {A S} (body : S -> A -> outcome S) (xs : list A) :
  (forall s x, x ∈ xs -> exists s', body s x = Ok s') ->
  forall s, exists s', for_each body xs s = Ok s'.
Proof.
  induction xs as [|x xs IH]; intros Hok s; [by exists s|].
  rewrite for_each_cons.
  destruct (Hok s x) as (s1 & ->); [apply elem_of_cons; by left|].
  cbn [mbind outcome_bind].
  apply IH. intros s' x' Hx'. apply Hok. apply elem_of_cons. by right.
Qed.

Lemma enumerate_elem {A} (l : list A) (i : nat) (x : A) :
  (i, x) ∈ enumerate l -> x ∈ l.
Proof.
  unfold enumerate. intros (j & y & [= -> ->] & Hj)%elem_of_lookup_imap.
  by apply list_elem_of_lookup_2 in Hj.
Qed.

(** On a folder that can be listed and whose listed [.md] names can be
    read, the loader on the file system is the loader of the two classes. *)
Lemma disk_setup_vectorstore_readable {V} (svc : Services V)
    (fs : Disk.FileSystem) (folder : str) (db : Chroma.Collection V) :
  Disk.listdir fs folder = Ok (listdir svc folder) ->
  (forall filename,
      filename ∈ listdir svc folder ->
      endswith filename (lit ".md") = true ->
      Disk.read_text fs (os_path_join folder filename)
      = Ok (read_file svc (os_path_join folder filename))) ->
  Disk.setup_vectorstore svc fs folder db
  = CAGSystem.setup_vectorstore svc folder db.
Proof.
  intros Hlist Hread.
  unfold Disk.setup_vectorstore, CAGSystem.setup_vectorstore,
    CAGSystem.load_documents.
  destruct (0 <? Chroma.count db); [done|].
  rewrite Hlist. cbn [mbind outcome_bind].
  rewrite (for_each_ext_in (Disk.load_file svc fs folder)
             (CAGSystem.load_file svc folder)); [done|].
  intros b [i fn] Hin%enumerate_elem.
  unfold Disk.load_file, CAGSystem.load_file.
  destruct (endswith fn (lit ".md")) eqn:Hmd; [|done].
  by rewrite Hread.
Qed.

(** X5: when the folder can be listed, every listed name ending in [.md]
    can be read, and the embedding service answers for every text, the
    first start stores one entry per chunk, in the order of the listing
    and of the chunks: the entry of a triple holds its id, its text, its
    metadata and the embedding of its text; the ids of the stored entries
    are pairwise distinct when the listing has no repeated name. *)
Theorem setup_vectorstore_populates {V} (svc : Services V)
    (fs : Disk.FileSystem) (folder : str) (vec : str -> V) :
  Disk.listdir fs folder = Ok (listdir svc folder) ->
  (forall filename,
      filename ∈ listdir svc folder ->
      endswith filename (lit ".md") = true ->
      Disk.read_text fs (os_path_join folder filename)
      = Ok (read_file svc (os_path_join folder filename))) ->
  (forall t, embed svc t = Ok (vec t)) ->
  exists c,
    Disk.setup_vectorstore svc fs folder [] = Ok c
    /\ c = map (fun t => stored t (vec t.1.1))
               (listing_triples svc folder (listdir svc folder))
    /\ Chroma.count c
       = len (listing_triples svc folder (listdir svc folder))
    /\ (NoDup (listdir svc folder) -> NoDup (map Chroma.entry_id c)).
Proof.
  intros Hlist Hread Hvec. eexists. split; [|split; [reflexivity|split]].
  - rewrite (disk_setup_vectorstore_readable svc fs folder [] Hlist Hread).
    rewrite setup_vectorstore_first. cbv zeta.
    unfold Chroma.embed_all. rewrite (embed_all_acc svc vec) by done.
    cbn [mbind outcome_bind]. simpl app. rewrite zip_with_stored_map.
    case_bool_decide as Hts; [done|].
    destruct (listing_triples svc folder (listdir svc folder)); [done|].
    first [done | exfalso; by apply Hts].
  - unfold Chroma.count, len. by rewrite length_map.
  - intros Hnd. rewrite map_map. simpl.
    by apply (listing_ids_NoDup svc folder).
Qed.

Lemma setup_vectorstore_populates_witness :
  exists c,
    Disk.setup_vectorstore demo_services demo_disk (lit "BellaTerra") [] = Ok c
    /\ Chroma.count c = 2.
Proof.
  destruct (setup_vectorstore_populates demo_services demo_disk
              (lit "BellaTerra") (fun t => length t) eq_refl
              (fun _ _ _ => eq_refl) (fun t => eq_refl))
    as (c & Hrun & _ & Hcount & _).
  exists c. split; [exact Hrun|]. rewrite Hcount. vm_compute. reflexivity.
Defined.

(** With the embedding service down and something to embed, the first
    start raises. *)
Lemma setup_vectorstore_first_down {V} (svc : Services V) (folder : str)
    (e : exn) (filename : str) :
  (forall t, embed svc t = Raise e) ->
  filename ∈ listdir svc folder ->
  endswith filename (lit ".md") = true ->
  file_text svc folder filename <> [] ->
  CAGSystem.setup_vectorstore svc folder [] = Raise e.
Proof.
  intros Hdown Hin Hmd Htext.
  pose proof (listing_triples_nonempty svc folder filename _ Hin Hmd Htext)
    as Hne.
  rewrite setup_vectorstore_first. cbv zeta.
  rewrite bool_decide_eq_true_2 by done.
  rewrite (embed_all_down svc _ e Hdown); [done|].
  by destruct (listing_triples svc folder (listdir svc folder)).
Qed.

Lemma disk_load_file_ok {V} (svc : Services V) (fs : Disk.FileSystem)
    (folder : str) (b : batch) (i : nat) (filename : str) :
  (endswith filename (lit ".md") = true ->
   exists content,
     Disk.read_text fs (os_path_join folder filename) = Ok content) ->
  exists b', Disk.load_file svc fs folder b (i, filename) = Ok b'.
Proof.
  intros Hread. unfold Disk.load_file.
  destruct (endswith filename (lit ".md")); [|by exists b].
  destruct (Hread eq_refl) as (content & ->). cbn [mbind outcome_bind].
  rewrite split_text_windows by lia. cbn [mbind outcome_bind]. by eexists.
Qed.

Lemma disk_load_file_raises {V} (svc : Services V) (fs : Disk.FileSystem)
    (folder : str) (b : batch) (i : nat) (filename : str) (e : exn) :
  endswith filename (lit ".md") = true ->
  Disk.read_text fs (os_path_join folder filename) = Raise e ->
  Disk.load_file svc fs folder b (i, filename) = Raise e.
Proof. intros Hmd Hfail. unfold Disk.load_file. by rewrite Hmd, Hfail. Qed.

(** X6: how the first start fails. When the folder cannot be listed the
    error of [os.listdir] is raised. When a listed name ending in [.md]
    cannot be read, and the [.md] names listed before it can, the error of
    that file is raised, whatever the state of the embedding service and
    whatever follows in the listing. When the folder can be listed and
    read, the embedding service fails on every text and some listed [.md]
    file has text, the first start raises as well. In each case the
    constructor raises the same error, so no object is built. *)
Theorem first_start_failures {V} (svc : Services V) (fs : Disk.FileSystem)
    (folder : str) :
  (forall e,
      Disk.listdir fs folder = Raise e ->
      Disk.setup_vectorstore svc fs folder [] = Raise e
      /\ Disk.__init__ svc fs folder [] = Raise e)
  /\ (forall before filename after e,
        Disk.listdir fs folder = Ok (before ++ filename :: after) ->
        (forall f, f ∈ before -> endswith f (lit ".md") = true ->
                   exists content,
                     Disk.read_text fs (os_path_join folder f) = Ok content) ->
        endswith filename (lit ".md") = true ->
        Disk.read_text fs (os_path_join folder filename) = Raise e ->
        Disk.setup_vectorstore svc fs folder [] = Raise e
        /\ Disk.__init__ svc fs folder [] = Raise e)
  /\ (forall e filename,
        Disk.listdir fs folder = Ok (listdir svc folder) ->
        (forall f, f ∈ listdir svc folder -> endswith f (lit ".md") = true ->
                   Disk.read_text fs (os_path_join folder f)
                   = Ok (read_file svc (os_path_join folder f))) ->
        (forall t, embed svc t = Raise e) ->
        filename ∈ listdir svc folder ->
        endswith filename (lit ".md") = true ->
        file_text svc folder filename <> [] ->
        exists err,
          Disk.setup_vectorstore svc fs folder [] = Raise err
          /\ Disk.__init__ svc fs folder [] = Raise err).
Proof.
  split; [|split].
  - intros e Hlist.
    assert (Hrun : Disk.setup_vectorstore svc fs folder [] = Raise e).
    { unfold Disk.setup_vectorstore. simpl. by rewrite Hlist. }
    split; [exact Hrun|]. unfold Disk.__init__. by rewrite Hrun.
  - intros before filename after e Hlist Hbefore Hmd Hfail.
    assert (Hrun : Disk.setup_vectorstore svc fs folder [] = Raise e).
    { unfold Disk.setup_vectorstore. simpl. rewrite Hlist.
      cbn [mbind outcome_bind]. unfold enumerate.
      rewrite imap_app, for_each_app.
      destruct (for_each_ok (Disk.load_file svc fs folder)
                  (imap (fun i x => (i, x)) before)) with (s := empty_batch)
        as (b & ->).
      { intros s [i f] Hin%enumerate_elem.
        apply disk_load_file_ok. intros Hf. by apply Hbefore. }
      cbn [mbind outcome_bind]. rewrite imap_cons, for_each_cons.
      by rewrite (disk_load_file_raises svc fs folder b _ filename e Hmd Hfail). }
    split; [exact Hrun|]. unfold Disk.__init__. by rewrite Hrun.
  - intros e filename Hlist Hread Hdown Hin Hmd Htext. exists e.
    assert (Hrun : Disk.setup_vectorstore svc fs folder [] = Raise e).
    { rewrite (disk_setup_vectorstore_readable svc fs folder [] Hlist Hread).
      by apply (setup_vectorstore_first_down svc folder e filename). }
    split; [exact Hrun|]. unfold Disk.__init__. by rewrite Hrun.
Qed.

Lemma first_start_failures_witness :
  Disk.listdir demo_disk_with_directory (lit "BellaTerra")
  = Ok ([lit "wine.md"] ++ lit "archive.md" :: [lit "pasta.md"])
  /\ Disk.read_text demo_disk_with_directory (lit "BellaTerra/archive.md")
     = Raise (OSError (lit "Is a directory"))
  /\ Disk.setup_vectorstore demo_services demo_disk_with_directory
       (lit "BellaTerra") []
     = Raise (OSError (lit "Is a directory")).
Proof.
  split; [reflexivity|]. split; [reflexivity|].
  apply (proj1 (proj2 (first_start_failures demo_services
                         demo_disk_with_directory (lit "BellaTerra")))
           [lit "wine.md"] (lit "archive.md") [lit "pasta.md"]
           (OSError (lit "Is a directory")) eq_refl).
  - intros f Hf _. apply list_elem_of_singleton in Hf as ->. by eexists.
  - vm_compute. reflexivity.
  - vm_compute. reflexivity.
Defined.

(** X7: every entry stored by the first start comes from a file of the
    listing whose name ends in [.md]: its text is chunk [j] of that file,
    its metadata is [{source: filename, chunk_index: j}] and its id is
    [filename_j], so the id can be rebuilt from the metadata; and there is
    one entry per chunk. *)
Theorem setup_vectorstore_entries_consistent {V} (svc : Services V)
    (folder : str) (c : Chroma.Collection V) :
  CAGSystem.setup_vectorstore svc folder [] = Ok c ->
  Chroma.count c = len (listing_triples svc folder (listdir svc folder))
  /\ forall entry,
       entry ∈ c ->
       exists filename j,
         filename ∈ listdir svc folder
         /\ endswith filename (lit ".md") = true
         /\ file_chunks svc folder filename !! j
            = Some (Chroma.entry_document entry)
         /\ Chroma.entry_metadata entry
            = Some {[ lit "source" := VStr filename;
                      lit "chunk_index" := VInt (Z.of_nat j) ]}
         /\ Chroma.entry_id entry = filename ++ lit "_" ++ str_of_nat j.
Proof.
  intros (vs & -> & Hlen)%setup_vectorstore_entries. split.
  - unfold Chroma.count, len. rewrite length_zip_with. lia.
  - intros entry Hin. by apply (stored_entry_origin svc folder vs).
Qed.

Lemma setup_vectorstore_entries_consistent_witness :
  CAGSystem.setup_vectorstore demo_services (lit "BellaTerra") []
  = Ok demo_collection
  /\ Chroma.count demo_collection = 2.
Proof.
  assert (Hrun : CAGSystem.setup_vectorstore demo_services (lit "BellaTerra") []
                 = Ok demo_collection) by (vm_compute; reflexivity).
  split; [exact Hrun|].
  rewrite (proj1 (setup_vectorstore_entries_consistent demo_services
                    (lit "BellaTerra") demo_collection Hrun)).
  vm_compute. reflexivity.
Defined.

(** ** Retrieval after the first start *)

(** X8: on an object built by the constructor from an empty collection,
    with a reachable embedding service and [k >= 1], [retrieve_context]
    returns
    [min(k, number of stored chunks)] contexts and raises nothing; each
    context names as its source a file of the listing whose name ends in
    [.md], and its content is a chunk of that file. *)
Theorem retrieve_context_after_first_start {V} (svc : Services V)
    (folder : str) (self : CAGSystem.t V) (q : str) (k : nat) (v : V) :
  (0 < k)%nat ->
  CAGSystem.__init__ svc folder [] = Ok self ->
  embed svc q = Ok v ->
  exists ctxs,
    CAGSystem.retrieve_context svc self q k = Ok ctxs
    /\ length ctxs
       = Nat.min k (length (listing_triples svc folder (listdir svc folder)))
    /\ forall ctx,
         ctx ∈ ctxs ->
         exists filename j,
           filename ∈ listdir svc folder
           /\ endswith filename (lit ".md") = true
           /\ source ctx = VStr filename
           /\ file_chunks svc folder filename !! j = Some (content ctx).
Proof.
  intros Hk Hinit Hv. unfold CAGSystem.__init__ in Hinit.
  destruct (CAGSystem.setup_vectorstore svc folder []) as [c| |] eqn:Hsetup;
    [|done..].
  cbn [mbind outcome_bind] in Hinit. injection Hinit as <-.
  pose proof (setup_vectorstore_sourced svc folder c Hsetup) as Hsrc.
  destruct (setup_vectorstore_entries svc folder c Hsetup) as (vs & Hc & Hlen).
  assert (Hrow : Forall (fun e => is_Some (entry_source e))
                        (Chroma.nearest svc c v k)).
  { apply Forall_forall. intros e He%nearest_elem.
    unfold sourced in Hsrc. rewrite Forall_forall in Hsrc. by apply Hsrc. }
  destruct (contexts_of_sourced_acc _ Hrow [])
    as (ctxs & Hrun & Hn & Hcontent & Hsource).
  exists ctxs.
  rewrite (retrieve_context_row svc
             {| CAGSystem.data_folder := folder;
                CAGSystem.collection := Some c |} c q k v eq_refl Hv).
  split; [exact Hrun|]. split.
  - rewrite Hn, nearest_length. f_equal. rewrite Hc, length_zip_with. lia.
  - intros ctx (i & Hi)%list_elem_of_lookup.
    assert (Hdoc : map content ctxs !! i = Some (content ctx))
      by (by rewrite list_lookup_fmap, Hi).
    assert (Hs : map (Some ∘ source) ctxs !! i = Some (Some (source ctx)))
      by (by rewrite list_lookup_fmap, Hi).
    rewrite Hcontent, list_lookup_fmap in Hdoc.
    rewrite Hsource, list_lookup_fmap in Hs.
    destruct (Chroma.nearest svc c v k !! i) as [e|] eqn:He; [|done].
    simpl in Hdoc, Hs. injection Hdoc as Hdoc. injection Hs as Hs.
    assert (Hin : e ∈ c).
    { apply (nearest_elem svc c v k). by apply list_elem_of_lookup_2 in He. }
    rewrite Hc in Hin.
    apply stored_entry_origin in Hin
      as (fn & j & Hfn & Hmd & Hj & Hmeta & _).
    exists fn, j. split; [done|]. split; [done|]. split.
    + unfold entry_source in Hs. rewrite Hmeta in Hs. simpl in Hs.
      rewrite chunk_metadata_source in Hs. by injection Hs.
    + by rewrite <- Hdoc.
Qed.

Lemma retrieve_context_after_first_start_witness :
  CAGSystem.__init__ demo_services (lit "BellaTerra") [] = Ok demo_system
  /\ exists ctxs,
       CAGSystem.retrieve_context demo_services demo_system demo_query 1
       = Ok ctxs
       /\ length ctxs = 1%nat.
Proof.
  assert (Hinit : CAGSystem.__init__ demo_services (lit "BellaTerra") []
                  = Ok demo_system) by (vm_compute; reflexivity).
  split; [exact Hinit|].
  destruct (retrieve_context_after_first_start demo_services (lit "BellaTerra")
              demo_system demo_query 1 32%nat ltac:(lia) Hinit eq_refl)
    as (ctxs & Hrun & Hlen & _).
  exists ctxs. split; [exact Hrun|]. rewrite Hlen. vm_compute. reflexivity.
Defined.

(** X9: when one of the entries that the store returns for the query has
    no metadata or no ["source"] in its metadata, [retrieve_context]
    returns nothing: it raises [TypeError] or [KeyError], also when other
    entries of the result have a source. *)
Theorem retrieve_context_raises_without_source {V} (svc : Services V)
    (folder : str) (c : Chroma.Collection V) (q : str) (k : nat) (v : V)
    (e : Chroma.entry V) :
  embed svc q = Ok v ->
  e ∈ Chroma.nearest svc c v k ->
  entry_source e = None ->
  exists err,
    (err = TypeError \/ err = KeyError)
    /\ CAGSystem.retrieve_context svc
         {| CAGSystem.data_folder := folder; CAGSystem.collection := Some c |}
         q k = Raise err
    /\ CAGSystemFast.retrieve_context svc
         {| CAGSystemFast.data_folder := folder;
            CAGSystemFast.collection := Some c |} q k = Raise err.
Proof.
  intros Hv He Hnone. rewrite fast_retrieve_context.
  destruct (retrieve_context_missing_source svc
              {| CAGSystem.data_folder := folder;
                 CAGSystem.collection := Some c |} c q k v e eq_refl Hv He Hnone)
    as [Hr|Hr]; rewrite Hr; eauto.
Qed.

Lemma retrieve_context_raises_without_source_witness :
  exists err,
    (err = TypeError \/ err = KeyError)
    /\ CAGSystem.retrieve_context demo_services
         {| CAGSystem.data_folder := lit "BellaTerra";
            CAGSystem.collection := Some unsourced_collection |}
         (lit "anything") 5 = Raise err.
Proof.
  destruct (retrieve_context_raises_without_source demo_services
              (lit "BellaTerra") unsourced_collection (lit "anything") 5 8%nat
              {| Chroma.entry_id := lit "specials_0";
                 Chroma.entry_document := lit "Soup of the day";
                 Chroma.entry_metadata :=
                   Some {[ lit "chunk_index" := VInt 0 ]};
                 Chroma.entry_embedding := 15%nat |})
    as (err & Herr & Hrun & _).
  - reflexivity.
  - apply elem_of_cons. by left.
  - vm_compute. reflexivity.
  - exists err. split; [exact Herr | exact Hrun].
Defined.

(** ** The fast path *)

Lemma prompt_query (q context_str : str) :
  contains (CAGSystemFast.prompt q context_str) q.
Proof.
  unfold CAGSystemFast.prompt, lines. eapply contains_trans.
  - apply contains_join. do 5 (apply elem_of_cons; right).
    apply elem_of_cons. left. reflexivity.
  - apply contains_app_r, contains_refl.
Qed.

Lemma prompt_blocks (q : str) (ctxs : list context_entry)
    (ctx : context_entry) :
  ctx ∈ ctxs ->
  contains (CAGSystemFast.prompt q (CAGSystemFast.format_context ctxs))
           (context_block ctx).
Proof.
  intros Hin. unfold CAGSystemFast.prompt, lines. eapply contains_trans.
  - apply contains_join. do 3 (apply elem_of_cons; right).
    apply elem_of_cons. left. reflexivity.
  - rewrite fast_format_context, format_context_blocks.
    apply contains_join. apply list_elem_of_fmap. by exists ctx.
Qed.

(** X10: whenever the fast [process_query] returns a record, its answer is
    what the chat model returned for one request with the model
    [gpt-4o-mini], the fixed system message, temperature 0.7 and at most
    500 tokens, whose user message contains the query and, for every
    context of the record, the block [From <source>:] followed by the
    content; and the record holds the query as given. *)
Theorem fast_process_query_request {V} (svc : Services V)
    (self : CAGSystemFast.t V) (q : str) (r : response) :
  CAGSystemFast.process_query svc self q = Ok r ->
  query r = q
  /\ CAGSystemFast.retrieve_context svc self q 5 = Ok (initial_context r)
  /\ exists user_prompt,
       chat_completion svc
         {| model := lit "gpt-4o-mini";
            messages :=
              [ (lit "system", lit "You are a helpful restaurant assistant.");
                (lit "user", user_prompt) ];
            temperature := (7 # 10)%Q;
            max_tokens := 500 |}
       = Ok (augmented_response r)
       /\ contains user_prompt q
       /\ forall ctx,
            ctx ∈ initial_context r ->
            contains user_prompt
                     (lit "From " ++ format_value (source ctx) ++ lit ":"
                      ++ nl ++ content ctx).
Proof.
  unfold CAGSystemFast.process_query. intros Hrun.
  destruct (CAGSystemFast.retrieve_context svc self q 5) as [ctxs| |];
    [|done..].
  cbn [mbind outcome_bind] in Hrun.
  destruct (chat_completion svc _) as [a| |] eqn:Ha; [|done..].
  cbn [mbind outcome_bind] in Hrun. injection Hrun as <-. simpl.
  split; [done|]. split; [done|].
  eexists. split; [exact Ha|]. split; [apply prompt_query|].
  intros ctx Hctx. by apply prompt_blocks.
Qed.

Lemma fast_process_query_request_witness :
  exists r,
    CAGSystemFast.process_query demo_services demo_fast_system demo_query
    = Ok r
    /\ query r = demo_query
    /\ length (initial_context r) = 2%nat.
Proof.
  eexists. split; [vm_compute; reflexivity|].
  split.
  - refine (proj1 (fast_process_query_request demo_services demo_fast_system
                     demo_query _ _)).
    vm_compute. reflexivity.
  - reflexivity.
Defined.

(** X11: on an empty collection neither path stops early: with a reachable
    embedding service the retrieved context is empty, the context string
    is empty, the model is still called, and its answer is returned with
    an empty [initial_context]. *)
Theorem process_query_empty_collection {V} (svc : Services V) (folder : str)
    (q : str) (v : V) (a1 a2 : str) :
  embed svc q = Ok v ->
  CAGSystem.augment_context svc
    {| CAGSystem.data_folder := folder; CAGSystem.collection := Some [] |} q []
  = Ok a1 ->
  chat_completion svc (fast_request q []) = Ok a2 ->
  CAGSystem.format_context [] = []
  /\ CAGSystem.process_query svc
       {| CAGSystem.data_folder := folder; CAGSystem.collection := Some [] |} q
     = Ok {| query := q; initial_context := []; augmented_response := a1 |}
  /\ CAGSystemFast.process_query svc
       {| CAGSystemFast.data_folder := folder;
          CAGSystemFast.collection := Some [] |} q
     = Ok {| query := q; initial_context := []; augmented_response := a2 |}.
Proof.
  intros Hv Ha1 Ha2. split; [done|].
  assert (Hret : CAGSystem.retrieve_context svc
                   {| CAGSystem.data_folder := folder;
                      CAGSystem.collection := Some [] |} q 5 = Ok []).
  { rewrite (retrieve_context_row svc
               {| CAGSystem.data_folder := folder;
                  CAGSystem.collection := Some [] |} [] q 5 v eq_refl Hv).
    reflexivity. }
  destruct (process_query_ok svc folder (Some []) q [] Hret) as [Hfull Hfast].
  split; [by apply Hfull | by apply Hfast].
Qed.

Lemma process_query_empty_collection_witness :
  exists a2,
    CAGSystemFast.process_query demo_services
      {| CAGSystemFast.data_folder := lit "BellaTerra";
         CAGSystemFast.collection := Some [] |} demo_query
    = Ok {| query := demo_query; initial_context := [];
            augmented_response := a2 |}.
Proof.
  eexists.
  refine (proj2 (proj2 (process_query_empty_collection demo_services
                          (lit "BellaTerra") demo_query 32%nat _ _
                          eq_refl _ _)));
    vm_compute; reflexivity.
Defined.

(** ** Failures in the augmentation path *)

Lemma execute_task_raises {V} (svc : Services V) (heap : list Crew.Task)
    (r : Crew.run) (ref : nat) (task : Crew.Task) (e : exn) :
  heap !! ref = Some task ->
  agent_execute svc
    {| stage_agent := Crew.agent task;
       stage_description := Crew.description task;
       stage_expected_output := Crew.expected_output task;
       stage_context :=
         omap (fun c => Crew.outputs r !! c) (Crew.context task) |}
  = Raise e ->
  Crew.execute_task svc heap r ref = Raise e.
Proof.
  intros Hheap Hfail. unfold Crew.execute_task. rewrite Hheap.
  cbn [not_none mbind outcome_bind]. by rewrite Hfail.
Qed.

Lemma kickoff_raises {V} (svc : Services V) (heap : list Crew.Task)
    (crew : Crew.t) (e : exn) :
  Crew.kickoff_run svc heap crew = Raise e ->
  Crew.kickoff svc heap crew = Raise e.
Proof. unfold Crew.kickoff. by intros ->. Qed.

(** X12: a failure of the model at any of the three stages ends
    [augment_context] with that error: the later stages are not run and no
    answer is returned. *)
Theorem augment_context_aborts {V} (svc : Services V) (self : CAGSystem.t V)
    (q : str) (ctxs : list context_entry) (e : exn) :
  (agent_execute svc (analysis_input self q ctxs) = Raise e ->
   CAGSystem.augment_context svc self q ctxs = Raise e)
  /\ (forall out1,
        agent_execute svc (analysis_input self q ctxs) = Ok out1 ->
        agent_execute svc (augmentation_input out1) = Raise e ->
        CAGSystem.augment_context svc self q ctxs = Raise e)
  /\ (forall out1 out2,
        agent_execute svc (analysis_input self q ctxs) = Ok out1 ->
        agent_execute svc (augmentation_input out1) = Ok out2 ->
        agent_execute svc (generation_input q out1 out2) = Raise e ->
        CAGSystem.augment_context svc self q ctxs = Raise e).
Proof.
  split; [|split].
  - intros H1. unfold CAGSystem.augment_context. apply kickoff_raises.
    unfold Crew.kickoff_run. cbn [Crew.tasks CAGSystem.augment_crew].
    rewrite for_each_cons.
    rewrite (execute_task_raises svc (CAGSystem.augment_heap self q ctxs) _ 0%nat
               (CAGSystem.context_analysis_task self q
                  (CAGSystem.format_context ctxs)) e eq_refl H1).
    done.
  - intros out1 H1 H2. unfold CAGSystem.augment_context. apply kickoff_raises.
    unfold Crew.kickoff_run. cbn [Crew.tasks CAGSystem.augment_crew].
    rewrite for_each_cons, (execute_analysis svc self q ctxs out1 H1).
    cbn [mbind outcome_bind]. rewrite for_each_cons.
    rewrite (execute_task_raises svc (CAGSystem.augment_heap self q ctxs) _ 1%nat
               (CAGSystem.augmentation_task 0) e eq_refl); [done|].
    cbn [Crew.outputs Crew.context CAGSystem.augmentation_task omap list_omap].
    rewrite lookup_singleton_eq. exact H2.
  - intros out1 out2 H1 H2 H3.
    unfold CAGSystem.augment_context. apply kickoff_raises.
    unfold Crew.kickoff_run. cbn [Crew.tasks CAGSystem.augment_crew].
    rewrite for_each_cons, (execute_analysis svc self q ctxs out1 H1).
    cbn [mbind outcome_bind].
    rewrite for_each_cons,
      (execute_augmentation svc self q ctxs _ out1 out2 H2).
    cbn [mbind outcome_bind]. rewrite for_each_cons.
    rewrite (execute_task_raises svc (CAGSystem.augment_heap self q ctxs) _ 2%nat
               (CAGSystem.generation_task q 0 1) e eq_refl); [done|].
    cbn [Crew.outputs Crew.context CAGSystem.generation_task omap list_omap].
    rewrite lookup_insert_ne by done.
    rewrite lookup_singleton_eq, lookup_insert_eq. exact H3.
Qed.

Lemma augment_context_aborts_witness :
  CAGSystem.augment_context demo_services_mute demo_system demo_query
    demo_context
  = Raise (ServiceError (lit "rate limit")).
Proof.
  apply (proj1 (augment_context_aborts demo_services_mute demo_system
                  demo_query demo_context (ServiceError (lit "rate limit")))).
  reflexivity.
Defined.

(** ** The [/query] route *)

Lemma validate_ok (q : str) (sid : option str) :
  1 <= len q <= 500 ->
  Api.validate q sid = Ok {| Api.request_query := q; Api.session_id := sid |}.
Proof. apply validate_spec. Qed.

Lemma validate_rejects (q : str) (sid : option str) :
  len q < 1 \/ 500 < len q -> Api.validate q sid = Raise ValidationError.
Proof. apply validate_spec. Qed.

(** X13: the route answers with the text of an answer exactly when the
    query has between 1 and 500 characters, the global instance exists,
    the API key is set and not empty, and [process_query] returns a
    record; the text is then the [augmented_response] of that record. *)
Theorem api_process_query_success {V} (svc : Services V)
    (cag_system : option (CAGSystem.t V)) (key : option str) (q : str)
    (sid : option str) (a : str) :
  Api.process_query svc cag_system key q sid = Api.Success a <->
  1 <= len q <= 500
  /\ exists cag res,
       cag_system = Some cag
       /\ (exists c k, key = Some (c :: k))
       /\ CAGSystem.process_query svc cag q = Ok res
       /\ augmented_response res = a.
Proof.
  unfold Api.process_query. split.
  - destruct (Z.le_gt_cases 1 (len q)) as [H1|H1];
      [|rewrite validate_rejects by lia; done].
    destruct (Z.le_gt_cases (len q) 500) as [H2|H2];
      [|rewrite validate_rejects by lia; done].
    rewrite validate_ok by lia. simpl.
    destruct cag_system as [cag|]; [|done].
    destruct key as [[|c k]|]; [done| |done].
    destruct (CAGSystem.process_query svc cag q) as [res| |] eqn:Hres;
      [|done..].
    intros [= <-]. split; [lia|]. exists cag, res.
    split; [done|]. split; [by exists c, k|]. by split.
  - intros (Hlen & cag & res & -> & (c & k & ->) & Hres & <-).
    rewrite validate_ok by lia. simpl. by rewrite Hres.
Qed.

(** X14: the checks of the route are made in this order. A query that is
    empty or longer than 500 characters is answered 422, whatever the
    state of the server; otherwise a missing global instance is answered
    503; otherwise a missing or empty API key is answered 500, and
    [process_query] is not called; otherwise an error raised by
    [process_query] is answered 500. *)
Theorem api_process_query_status {V} (svc : Services V)
    (cag_system : option (CAGSystem.t V)) (key : option str) (q : str)
    (sid : option str) :
  (len q < 1 \/ 500 < len q ->
   Api.process_query svc cag_system key q sid = Api.HTTPException 422)
  /\ (1 <= len q <= 500 ->
      Api.process_query svc None key q sid = Api.HTTPException 503)
  /\ (forall cag,
        1 <= len q <= 500 -> key = None \/ key = Some [] ->
        Api.process_query svc (Some cag) key q sid = Api.HTTPException 500)
  /\ (forall cag c k e,
        1 <= len q <= 500 ->
        CAGSystem.process_query svc cag q = Raise e ->
        Api.process_query svc (Some cag) (Some (c :: k)) q sid
        = Api.HTTPException 500).
Proof.
  unfold Api.process_query. repeat split.
  - intros H. by rewrite validate_rejects.
  - intros H. by rewrite validate_ok.
  - intros cag H [-> | ->]; by rewrite validate_ok.
  - intros cag c k e H He. rewrite validate_ok by done. simpl. by rewrite He.
Qed.

Lemma api_process_query_status_witness :
  Api.process_query demo_services_down None None
    (replicate 501 "x"%char) None = Api.HTTPException 422
  /\ Api.process_query demo_services_down (Some demo_system)
       (Some (lit "sk-test")) demo_query None = Api.HTTPException 500.
Proof.
  split.
  - apply (proj1 (api_process_query_status demo_services_down None None
                    (replicate 501 "x"%char) None)).
    right. unfold len. rewrite length_replicate. lia.
  - reflexivity.
Defined.

(** ** The asynchronous routes and the job table *)

(** X15: a request with a query of 1 to 500 characters, on a server whose
    global instance exists, is accepted: the reply carries the identifier
    drawn for the job and the status [processing], one background task is
    added for that identifier and the request, and [GET /jobs/<id>] then
    returns the job as [processing], with no result and no error; the
    other jobs of the table are as before. *)
Theorem process_query_async_accepts {V} (cag : CAGSystem.t V)
    (jobs : gmap str Routes.JobStatus) (uuid4 q : str) (sid : option str) :
  1 <= len q <= 500 ->
  exists jobs',
    Routes.process_query_async (Some cag) jobs uuid4 q sid
    = (Routes.Accepted uuid4 (lit "processing"), jobs',
       [(uuid4, {| Api.request_query := q; Api.session_id := sid |})])
    /\ Routes.get_job_status jobs' uuid4
       = Routes.Found {| Routes.job_id := uuid4;
                         Routes.status := lit "processing";
                         Routes.result := None; Routes.error := None |}
    /\ forall id, id <> uuid4 ->
         Routes.get_job_status jobs' id = Routes.get_job_status jobs id.
Proof.
  intros Hlen. unfold Routes.process_query_async.
  rewrite validate_ok by done. eexists. split; [reflexivity|].
  unfold Routes.get_job_status. split.
  - by rewrite lookup_insert_eq.
  - intros id Hid. by rewrite lookup_insert_ne.
Qed.

Lemma process_query_async_accepts_witness :
  exists jobs',
    Routes.process_query_async (Some demo_system) ∅ (lit "job-1") demo_query
      None
    = (Routes.Accepted (lit "job-1") (lit "processing"), jobs',
       [(lit "job-1",
         {| Api.request_query := demo_query; Api.session_id := None |})])
    /\ Routes.get_job_status jobs' (lit "job-2") = Routes.NotFound 404.
Proof.
  destruct (process_query_async_accepts demo_system ∅ (lit "job-1") demo_query
              None) as (jobs' & Hrun & _ & Hother); [vm_compute; split; discriminate|].
  exists jobs'. split; [exact Hrun|].
  rewrite Hother by discriminate. reflexivity.
Defined.

(** X16: a request whose query is empty or longer than 500 characters is
    answered 422, and a valid request on a server without global instance
    is answered 503; in both cases the job table is unchanged and no
    background task is added. An identifier that is not in the table is
    answered 404. *)
Theorem process_query_async_rejects {V} (cag_system : option (CAGSystem.t V))
    (jobs : gmap str Routes.JobStatus) (uuid4 q : str) (sid : option str) :
  (len q < 1 \/ 500 < len q ->
   Routes.process_query_async cag_system jobs uuid4 q sid
   = (Routes.Rejected 422, jobs, []))
  /\ (1 <= len q <= 500 ->
      Routes.process_query_async (@None (CAGSystem.t V)) jobs uuid4 q sid
      = (Routes.Rejected 503, jobs, []))
  /\ (forall id, jobs !! id = None ->
        Routes.get_job_status jobs id = Routes.NotFound 404).
Proof.
  unfold Routes.process_query_async, Routes.get_job_status. repeat split.
  - intros H. by rewrite validate_rejects.
  - intros H. by rewrite validate_ok.
  - by intros id ->.
Qed.

(** X17: the asynchronous route does not look at the API key: for a valid
    query on a server whose global instance exists and whose API key is
    missing or empty, [POST /query] answers 500 while [POST /query/async]
    accepts the request and adds the background task. *)
Theorem process_query_async_ignores_api_key {V} (svc : Services V)
    (cag : CAGSystem.t V) (jobs : gmap str Routes.JobStatus) (uuid4 q : str)
    (sid key : option str) :
  1 <= len q <= 500 -> key = None \/ key = Some [] ->
  Api.process_query svc (Some cag) key q sid = Api.HTTPException 500
  /\ (Routes.process_query_async (Some cag) jobs uuid4 q sid).1.1
     = Routes.Accepted uuid4 (lit "processing")
  /\ (Routes.process_query_async (Some cag) jobs uuid4 q sid).2
     = [(uuid4, {| Api.request_query := q; Api.session_id := sid |})].
Proof.
  intros Hlen Hkey. split.
  - unfold Api.process_query. rewrite validate_ok by done.
    by destruct Hkey as [-> | ->].
  - unfold Routes.process_query_async. by rewrite validate_ok.
Qed.

Lemma process_query_async_ignores_api_key_witness :
  Api.process_query demo_services (Some demo_system) None demo_query None
  = Api.HTTPException 500
  /\ (Routes.process_query_async (Some demo_system) ∅ (lit "job-1")
        demo_query None).1.1
     = Routes.Accepted (lit "job-1") (lit "processing").
Proof.
  destruct (process_query_async_ignores_api_key demo_services demo_system ∅
              (lit "job-1") demo_query None None)
    as (Hsync & Hasync & _); [vm_compute; split; discriminate | by left |].
  split; [exact Hsync | exact Hasync].
Defined.

(** X18: what the background task writes. When [process_query] returns a
    record the job becomes [completed] and its result holds the query of
    the request, the [augmented_response] of the record, the session of
    the request (the drawn identifier when the request has none or an
    empty one), the second clock reading and the elapsed time; when it
    raises, the job becomes [failed] with the message of the error and no
    result; without global instance the job fails with [AttributeError].
    The other jobs are as before. *)
Theorem process_query_background_records {V} (svc : Services V)
    (message : exn -> str) (cag : CAGSystem.t V)
    (jobs : gmap str Routes.JobStatus) (id : str) (request : Api.QueryRequest)
    (uuid4 : str) (t0 t1 : Z) :
  (forall res,
      CAGSystem.process_query svc cag (Api.request_query request) = Ok res ->
      Routes.get_job_status
        (Routes.process_query_background svc message (Some cag) jobs id
           request uuid4 t0 t1) id
      = Routes.Found
          {| Routes.job_id := id; Routes.status := lit "completed";
             Routes.result :=
               Some {| Routes.r_query := Api.request_query request;
                       Routes.r_response := augmented_response res;
                       Routes.r_session_id :=
                         match Api.session_id request with
                         | Some (c :: s) => c :: s
                         | _ => uuid4
                         end;
                       Routes.r_timestamp := t1;
                       Routes.r_processing_time := ((t1 - t0) # 1000000)%Q |};
             Routes.error := None |})
  /\ (forall e,
        CAGSystem.process_query svc cag (Api.request_query request) = Raise e ->
        Routes.get_job_status
          (Routes.process_query_background svc message (Some cag) jobs id
             request uuid4 t0 t1) id
        = Routes.Found
            {| Routes.job_id := id; Routes.status := lit "failed";
               Routes.result := None; Routes.error := Some (message e) |})
  /\ Routes.get_job_status
       (Routes.process_query_background svc message None jobs id
          request uuid4 t0 t1) id
     = Routes.Found
         {| Routes.job_id := id; Routes.status := lit "failed";
            Routes.result := None;
            Routes.error := Some (message AttributeError) |}
  /\ (forall cag_system id',
        id' <> id ->
        Routes.get_job_status
          (Routes.process_query_background svc message cag_system jobs id
             request uuid4 t0 t1) id'
        = Routes.get_job_status jobs id').
Proof.
  unfold Routes.process_query_background, Routes.get_job_status.
  split; [|split; [|split]].
  - intros res Hres. cbn [not_none mbind outcome_bind]. rewrite Hres.
    rewrite lookup_insert_eq. unfold Routes.build_response, Routes.session_or.
    by destruct (Api.session_id request) as [[|c s]|].
  - intros e He. cbn [not_none mbind outcome_bind]. rewrite He.
    by rewrite lookup_insert_eq.
  - cbn [not_none mbind outcome_bind]. by rewrite lookup_insert_eq.
  - intros cag_system id' Hid.
    destruct (_ ≫= _) as [res|e|]; [| |done]; by rewrite lookup_insert_ne.
Qed.

Lemma process_query_background_records_witness :
  Routes.get_job_status
    (Routes.process_query_background demo_services_down demo_message
       (Some demo_system) ∅ (lit "job-1")
       {| Api.request_query := demo_query; Api.session_id := None |}
       (lit "session-9") 0 2500000) (lit "job-1")
  = Routes.Found
      {| Routes.job_id := lit "job-1"; Routes.status := lit "failed";
         Routes.result := None;
         Routes.error := Some (lit "connection refused") |}.
Proof.
  apply (proj1 (proj2 (process_query_background_records demo_services_down
                         demo_message demo_system ∅ (lit "job-1")
                         {| Api.request_query := demo_query;
                            Api.session_id := None |}
                         (lit "session-9") 0 2500000))
           (ServiceError (lit "connection refused"))).
  vm_compute. reflexivity.
Defined.

(** X19: the life of a job. After an accepted request the job is
    [processing]; once the background task has run on the scheduled pair,
    and [process_query] has returned or raised, the job is [completed]
    with a result and no error, or [failed] with an error and no result,
    and never [processing] again. *)
Theorem async_job_lifecycle {V} (svc : Services V) (message : exn -> str)
    (cag : CAGSystem.t V) (jobs : gmap str Routes.JobStatus)
    (uuid4 q : str) (sid : option str) (session : str) (t0 t1 : Z) :
  1 <= len q <= 500 ->
  CAGSystem.process_query svc cag q <> Running ->
  exists jobs1 request job,
    Routes.process_query_async (Some cag) jobs uuid4 q sid
    = (Routes.Accepted uuid4 (lit "processing"), jobs1, [(uuid4, request)])
    /\ Routes.get_job_status
         (Routes.process_query_background svc message (Some cag) jobs1 uuid4
            request session t0 t1) uuid4
       = Routes.Found job
    /\ Routes.job_id job = uuid4
    /\ ((exists res,
           CAGSystem.process_query svc cag q = Ok res
           /\ Routes.status job = lit "completed"
           /\ (Routes.r_response <$> Routes.result job)
              = Some (augmented_response res)
           /\ Routes.error job = None)
        \/ (exists e,
              CAGSystem.process_query svc cag q = Raise e
              /\ Routes.status job = lit "failed"
              /\ Routes.result job = None
              /\ Routes.error job = Some (message e))).
Proof.
  intros Hlen Hret.
  unfold Routes.process_query_async, Routes.process_query_background,
    Routes.get_job_status.
  rewrite validate_ok by done. cbn [not_none mbind outcome_bind Api.request_query].
  destruct (CAGSystem.process_query svc cag q) as [res|e|] eqn:Hres; [| |done].
  - eexists _, _, _. split; [reflexivity|]. cbn [Api.request_query]. rewrite Hres.
    rewrite lookup_insert_eq. split; [reflexivity|]. split; [done|]. left.
    exists res. by repeat split.
  - eexists _, _, _. split; [reflexivity|]. cbn [Api.request_query]. rewrite Hres.
    rewrite lookup_insert_eq. split; [reflexivity|]. split; [done|]. right.
    exists e. by repeat split.
Qed.

Lemma async_job_lifecycle_witness :
  exists jobs1 request job,
    Routes.process_query_async (Some demo_system) ∅ (lit "job-1") demo_query
      None
    = (Routes.Accepted (lit "job-1") (lit "processing"), jobs1,
       [(lit "job-1", request)])
    /\ Routes.get_job_status
         (Routes.process_query_background demo_services demo_message
            (Some demo_system) jobs1 (lit "job-1") request (lit "session-9")
            0 2500000) (lit "job-1")
       = Routes.Found job
    /\ Routes.job_id job = lit "job-1".
Proof.
  destruct (async_job_lifecycle demo_services demo_message demo_system ∅
              (lit "job-1") demo_query None (lit "session-9") 0 2500000)
    as (jobs1 & request & job & Hrun & Hget & Hid & _).
  - vm_compute. split; discriminate.
  - vm_compute. discriminate.
  - exists jobs1, request, job. split; [exact Hrun|]. split; [exact Hget|].
    exact Hid.
Defined.

(** ** Start of the server and the health check *)

Lemma init_ok {V} (svc : Services V) (folder : str)
    (db : Chroma.Collection V) (cag : CAGSystem.t V) :
  CAGSystem.__init__ svc folder db = Ok cag ->
  exists c,
    CAGSystem.setup_vectorstore svc folder db = Ok c
    /\ cag = {| CAGSystem.data_folder := folder;
                CAGSystem.collection := Some c |}.
Proof.
  unfold CAGSystem.__init__.
  destruct (CAGSystem.setup_vectorstore svc folder db) as [c| |]; [|done..].
  cbn [mbind outcome_bind]. intros [= <-]. by exists c.
Qed.

Lemma startup_event_some {V} (svc : Services V) (db : Chroma.Collection V)
    (cag : CAGSystem.t V) :
  Routes.startup_event svc db = Some cag ->
  CAGSystem.__init__ svc (lit "BellaTerra") db = Ok cag.
Proof.
  unfold Routes.startup_event.
  destruct (CAGSystem.__init__ svc (lit "BellaTerra") db); [|done..].
  by intros [= ->].
Qed.

(** X20: for the instance left by a successful start of the server the
    health check reports [healthy], finds the collection and gives the
    number of its entries, which is the number found on disk when the
    collection was already populated; without instance it reports
    [unhealthy] and no vector store. *)
Theorem health_check_after_startup {V} (svc : Services V)
    (db : Chroma.Collection V) (cag : CAGSystem.t V) (key : option str)
    (now : Z) :
  Routes.startup_event svc db = Some cag ->
  (exists c,
      CAGSystem.collection cag = Some c
      /\ (db <> [] -> c = db)
      /\ Routes.health_check (Some cag) key now
         = {| Routes.health_status := lit "healthy";
              Routes.health_timestamp := now;
              Routes.check_cag_system := true;
              Routes.check_openai_key :=
                match key with Some (_ :: _) => true | _ => false end;
              Routes.check_vector_store := true;
              Routes.vector_store_documents := Some (len c) |})
  /\ Routes.health_check (@None (CAGSystem.t V)) key now
     = {| Routes.health_status := lit "unhealthy";
          Routes.health_timestamp := now;
          Routes.check_cag_system := false;
          Routes.check_openai_key :=
            match key with Some (_ :: _) => true | _ => false end;
          Routes.check_vector_store := false;
          Routes.vector_store_documents := None |}.
Proof.
  intros Hstart%startup_event_some. split; [|done].
  apply init_ok in Hstart as (c & Hsetup & ->).
  exists c. split; [done|]. split; [|done].
  intros Hne. rewrite setup_vectorstore_populated in Hsetup by done.
  by injection Hsetup.
Qed.

Lemma health_check_after_startup_witness :
  Routes.startup_event demo_services [] = Some demo_system
  /\ Routes.vector_store_documents
       (Routes.health_check (Some demo_system) None 0) = Some 2.
Proof.
  assert (Hstart : Routes.startup_event demo_services [] = Some demo_system)
    by (vm_compute; reflexivity).
  split; [exact Hstart|].
  destruct (proj1 (health_check_after_startup demo_services [] demo_system
                     None 0 Hstart)) as (c & Hc & _ & Hhealth).
  rewrite Hhealth. simpl in Hc. injection Hc as <-. reflexivity.
Defined.

(** X21: on a collection that is already populated the server starts
    whatever the state of the folder and of the embedding service, with
    the collection as found; a valid query on which the embedding service
    then fails is answered 500. *)
Theorem startup_on_populated_collection {V} (svc : Services V)
    (db : Chroma.Collection V) :
  db <> [] ->
  Routes.startup_event svc db
  = Some {| CAGSystem.data_folder := lit "BellaTerra";
            CAGSystem.collection := Some db |}
  /\ forall c k q sid e,
       1 <= len q <= 500 -> embed svc q = Raise e ->
       Api.process_query svc (Routes.startup_event svc db) (Some (c :: k)) q sid
       = Api.HTTPException 500.
Proof.
  intros Hne.
  assert (Hstart : Routes.startup_event svc db
                   = Some {| CAGSystem.data_folder := lit "BellaTerra";
                             CAGSystem.collection := Some db |}).
  { unfold Routes.startup_event, CAGSystem.__init__.
    by rewrite setup_vectorstore_populated. }
  split; [exact Hstart|].
  intros c k q sid e Hlen He. rewrite Hstart.
  unfold Api.process_query. rewrite validate_ok by done. simpl.
  destruct (process_query_retrieval_raises svc (lit "BellaTerra") (Some db) q e)
    as [Hfull _]; [by apply retrieve_context_unreachable|].
  by rewrite Hfull.
Qed.

(** X22: when the first start fails (the embedding service is down and
    the folder [BellaTerra] holds a menu with text) the server still
    starts, without global instance: every valid query is then answered
    503 by both routes, no job is created, and the health check reports
    [unhealthy]. *)
Theorem startup_failure_blocks_queries {V} (svc : Services V) (e : exn)
    (filename : str) :
  (forall t, embed svc t = Raise e) ->
  filename ∈ listdir svc (lit "BellaTerra") ->
  endswith filename (lit ".md") = true ->
  file_text svc (lit "BellaTerra") filename <> [] ->
  Routes.startup_event svc [] = None
  /\ (forall key q sid jobs uuid4,
        1 <= len q <= 500 ->
        Api.process_query svc (Routes.startup_event svc []) key q sid
        = Api.HTTPException 503
        /\ Routes.process_query_async (Routes.startup_event svc []) jobs
             uuid4 q sid
           = (Routes.Rejected 503, jobs, []))
  /\ (forall key now,
        Routes.health_status
          (Routes.health_check (Routes.startup_event svc []) key now)
        = lit "unhealthy").
Proof.
  intros Hdown Hin Hmd Htext.
  assert (Hstart : Routes.startup_event svc [] = None).
  { unfold Routes.startup_event, CAGSystem.__init__.
    by rewrite (setup_vectorstore_first_down svc (lit "BellaTerra") e filename). }
  rewrite Hstart. split; [done|]. split; [|done].
  intros key q sid jobs uuid4 Hlen.
  unfold Api.process_query, Routes.process_query_async.
  by rewrite validate_ok.
Qed.

Lemma startup_failure_blocks_queries_witness :
  Routes.startup_event demo_services_down [] = None
  /\ Api.process_query demo_services_down
       (Routes.startup_event demo_services_down []) (Some (lit "sk-test"))
       demo_query None
     = Api.HTTPException 503.
Proof.
  destruct (startup_failure_blocks_queries demo_services_down
              (ServiceError (lit "connection refused")) (lit "wine.md"))
    as (Hstart & Hquery & _).
  - reflexivity.
  - apply elem_of_cons. by left.
  - vm_compute. reflexivity.
  - vm_compute. discriminate.
  - split; [exact Hstart|].
    apply (Hquery (Some (lit "sk-test")) demo_query None ∅ (lit "job-1")).
    vm_compute. split; discriminate.
Defined.

Lemma startup_on_populated_collection_witness :
  demo_collection <> []
  /\ Routes.startup_event demo_services_down demo_collection
     = Some demo_system.
Proof.
  split; [discriminate|].
  apply (startup_on_populated_collection demo_services_down demo_collection).
  discriminate.
Defined.

(** ** The command line *)

Lemma lstrip_suffix (s : str) :
  exists pre, s = pre ++ Cli.lstrip s /\ Forall (fun c => Cli.isspace c = true) pre.
Proof.
  induction s as [|c s (pre & Hs & Hpre)]; [by exists []|].
  simpl. destruct (Cli.isspace c) eqn:Hc.
  - exists (c :: pre). split; [by rewrite Hs at 1|]. by constructor.
  - by exists [].
Qed.

Lemma lstrip_head (s : str) (c : ascii) :
  head (Cli.lstrip s) = Some c -> Cli.isspace c = false.
Proof.
  induction s as [|c' s IH]; [done|]. simpl.
  destruct (Cli.isspace c') eqn:Hc; [done|]. simpl. by intros [= <-].
Qed.

Lemma lstrip_last (s : str) (c : ascii) :
  last (Cli.lstrip s) = Some c -> last s = Some c.
Proof.
  destruct (lstrip_suffix s) as (pre & Hs & _). intros Hlast.
  rewrite Hs, last_app, Hlast. done.
Qed.

(** What [strip] returns neither begins nor ends with white space. *)
Lemma strip_ends (s : str) (c : ascii) :
  head (Cli.strip s) = Some c \/ last (Cli.strip s) = Some c ->
  Cli.isspace c = false.
Proof.
  unfold Cli.strip. rewrite head_reverse, last_reverse. intros [H|H].
  - apply lstrip_last in H. rewrite last_reverse in H.
    by apply lstrip_head in H.
  - by apply lstrip_head in H.
Qed.

(** X23: every query that the loop hands to [process_query] is a line of
    the input with the white space at both ends removed; it is not empty,
    does not begin or end with white space, and in lower case it is none
    of [quit], [exit], [q] and [help]. What is printed for it is the
    [augmented_response] of the record, or the error raised. *)
Theorem cli_loop_processed_queries {V} (svc : Services V)
    (cag : CAGSystem.t V) (inputs : list str) :
  forall events status ev,
    Cli.loop svc cag inputs = (events, status) ->
    ev ∈ events ->
    forall q,
      (exists a, ev = Cli.Processed q a) \/ (exists e, ev = Cli.ProcessingError q e) ->
      (exists line, line ∈ inputs /\ q = Cli.strip line)
      /\ q <> []
      /\ (Cli.lower q ∉ [lit "quit"; lit "exit"; lit "q"; lit "help"])
      /\ (forall c, head q = Some c \/ last q = Some c ->
                    Cli.isspace c = false)
      /\ (forall a, ev = Cli.Processed q a ->
            exists res, CAGSystem.process_query svc cag q = Ok res
                        /\ a = augmented_response res)
      /\ (forall e, ev = Cli.ProcessingError q e ->
            CAGSystem.process_query svc cag q = Raise e).
Proof.
  induction inputs as [|line rest IH]; intros events status ev Hrun Hev q Hq.
  - simpl in Hrun. injection Hrun as <- <-.
    apply list_elem_of_singleton in Hev as ->. by destruct Hq as [[? ?]|[? ?]].
  - assert (Hrest : forall events' status',
              Cli.loop svc cag rest = (events', status') -> ev ∈ events' ->
              (exists line0, line0 ∈ line :: rest /\ q = Cli.strip line0)
              /\ q <> []
              /\ (Cli.lower q ∉ [lit "quit"; lit "exit"; lit "q"; lit "help"])
              /\ (forall c, head q = Some c \/ last q = Some c ->
                            Cli.isspace c = false)
              /\ (forall a, ev = Cli.Processed q a ->
                    exists res, CAGSystem.process_query svc cag q = Ok res
                                /\ a = augmented_response res)
              /\ (forall e, ev = Cli.ProcessingError q e ->
                    CAGSystem.process_query svc cag q = Raise e)).
    { intros events' status' Hrun' Hev'.
      destruct (IH events' status' ev Hrun' Hev' q Hq)
        as ((l0 & Hl0 & Hql0) & Hrestq).
      split; [|exact Hrestq]. exists l0. split; [|done].
      apply elem_of_cons. by right. }
    cbn [Cli.loop] in Hrun. cbv zeta in Hrun.
    case_bool_decide as Hquit.
    { injection Hrun as <- <-. apply list_elem_of_singleton in Hev as ->.
      by destruct Hq as [[? ?]|[? ?]]. }
    case_bool_decide as Hhelp.
    { destruct (Cli.loop svc cag rest) as [events' status'] eqn:Hloop.
      injection Hrun as <- <-. apply elem_of_cons in Hev as [->|Hev].
      - by destruct Hq as [[? ?]|[? ?]].
      - by apply (Hrest events' status'). }
    case_bool_decide as Hempty.
    { by apply (Hrest events status). }
    assert (Hhere : q = Cli.strip line ->
              (exists line0, line0 ∈ line :: rest /\ q = Cli.strip line0)
              /\ q <> []
              /\ (Cli.lower q ∉ [lit "quit"; lit "exit"; lit "q"; lit "help"])
              /\ (forall c, head q = Some c \/ last q = Some c ->
                            Cli.isspace c = false)).
    { intros ->. split; [exists line; split; [apply elem_of_cons; by left|done]|].
      split; [done|]. split.
      - intros Hin. apply list_elem_of_In in Hin. simpl in Hin.
        destruct Hin as [Hin|[Hin|[Hin|[Hin|[]]]]].
        + apply Hquit. rewrite <- Hin. apply elem_of_cons. by left.
        + apply Hquit. rewrite <- Hin. do 1 (apply elem_of_cons; right).
          apply elem_of_cons. by left.
        + apply Hquit. rewrite <- Hin. do 2 (apply elem_of_cons; right).
          apply elem_of_cons. by left.
        + by apply Hhelp.
      - apply strip_ends. }
    destruct (CAGSystem.process_query svc cag (Cli.strip line))
      as [res|e|] eqn:Hres.
    + destruct (Cli.loop svc cag rest) as [events' status'] eqn:Hloop.
      injection Hrun as <- <-. apply elem_of_cons in Hev as [->|Hev];
        [|by apply (Hrest events' status')].
      destruct Hq as [[a [= <- <-]]|[e [=]]].
      destruct (Hhere eq_refl) as (H1 & H2 & H3 & H4).
      repeat split; try done.
      intros a [= <-]. by exists res.
    + destruct (Cli.loop svc cag rest) as [events' status'] eqn:Hloop.
      injection Hrun as <- <-. apply elem_of_cons in Hev as [->|Hev];
        [|by apply (Hrest events' status')].
      destruct Hq as [[a [=]]|[e' [= <- <-]]].
      destruct (Hhere eq_refl) as (H1 & H2 & H3 & H4).
      repeat split; try done.
      by intros e' [= <-].
    + injection Hrun as <- <-. by apply elem_of_nil in Hev.
Qed.

Lemma cli_loop_processed_queries_witness :
  exists a,
    Cli.loop demo_services demo_system demo_inputs
    = ([Cli.Processed demo_query a; Cli.Help; Cli.Goodbye], Ok 0)
    /\ demo_query <> []
    /\ exists res,
         CAGSystem.process_query demo_services demo_system demo_query = Ok res
         /\ a = augmented_response res.
Proof.
  eexists. split; [vm_compute; reflexivity|].
  refine (let H := cli_loop_processed_queries demo_services demo_system
                     demo_inputs _ _ (Cli.Processed demo_query _) _ _
                     demo_query (or_introl (ex_intro _ _ eq_refl)) in
          conj (proj1 (proj2 H))
               (proj1 (proj2 (proj2 (proj2 (proj2 H)))) _ eq_refl)).
  - vm_compute. reflexivity.
  - apply elem_of_cons. by left.
Defined.

(** X24: a line that, without the white space at its ends and in lower
    case, is [quit], [exit] or [q] ends the loop with status 0 after the
    farewell; the lines after it are not read, so what the program prints
    does not depend on them. *)
Theorem cli_loop_quit {V} (svc : Services V) (cag : CAGSystem.t V)
    (pre : list str) (line : str) (rest : list str) :
  Cli.lower (Cli.strip line) ∈ [lit "quit"; lit "exit"; lit "q"] ->
  Cli.loop svc cag (line :: rest) = ([Cli.Goodbye], Ok 0)
  /\ Cli.loop svc cag (pre ++ line :: rest) = Cli.loop svc cag (pre ++ [line]).
Proof.
  intros Hquit.
  assert (Hone : forall rest', Cli.loop svc cag (line :: rest')
                               = ([Cli.Goodbye], Ok 0)).
  { intros rest'. cbn [Cli.loop]. cbv zeta.
    by rewrite bool_decide_eq_true_2. }
  split; [apply Hone|].
  induction pre as [|l pre IH]; [rewrite !app_nil_l; by rewrite !Hone|].
  rewrite <- !app_comm_cons. cbn [Cli.loop]. cbv zeta. by rewrite IH.
Qed.

Lemma cli_loop_quit_witness :
  Cli.loop demo_services demo_system
    [lit " Quit "; lit "What pizza options are available?"]
  = ([Cli.Goodbye], Ok 0).
Proof.
  apply (cli_loop_quit demo_services demo_system [] (lit " Quit ")).
  vm_compute. apply elem_of_cons. by left.
Defined.

(** X25: when no line of the input ends the loop and every call of
    [process_query] returns or raises, the loop reaches the end of the
    input: the [EOFError] of [input()] is reported by the handler of the
    initialization, last of all, and the status is 1. *)
Theorem cli_loop_end_of_input {V} (svc : Services V) (cag : CAGSystem.t V)
    (inputs : list str) :
  (forall line, line ∈ inputs ->
                Cli.lower (Cli.strip line) ∉ [lit "quit"; lit "exit"; lit "q"]) ->
  (forall line, line ∈ inputs ->
                CAGSystem.process_query svc cag (Cli.strip line) <> Running) ->
  exists events,
    Cli.loop svc cag inputs
    = (events ++ [Cli.InitError Cli.EOFError], Ok 1)
    /\ Cli.Goodbye ∉ events.
Proof.
  induction inputs as [|line rest IH]; intros Hquit Hret.
  - exists []. split; [done|]. apply not_elem_of_nil.
  - destruct IH as (events & Hrun & Hbye).
    { intros l Hl. apply Hquit. apply elem_of_cons. by right. }
    { intros l Hl. apply Hret. apply elem_of_cons. by right. }
    cbn [Cli.loop]. cbv zeta.
    rewrite bool_decide_eq_false_2
      by (apply Hquit; apply elem_of_cons; by left).
    rewrite Hrun.
    case_bool_decide.
    { exists (Cli.Help :: events). split; [done|].
      apply not_elem_of_cons. by split. }
    case_bool_decide; [by exists events|].
    pose proof (Hret line ltac:(apply elem_of_cons; by left)) as Hline.
    destruct (CAGSystem.process_query svc cag (Cli.strip line)) as [res|e|];
      [| |done].
    + eexists (_ :: events). split; [done|]. apply not_elem_of_cons. by split.
    + eexists (_ :: events). split; [done|]. apply not_elem_of_cons. by split.
Qed.

Lemma cli_loop_end_of_input_witness :
  exists events,
    Cli.loop demo_services demo_system [lit "   "; lit "HELP"]
    = (events ++ [Cli.InitError Cli.EOFError], Ok 1).
Proof.
  destruct (cli_loop_end_of_input demo_services demo_system
              [lit "   "; lit "HELP"]) as (events & Hrun & _).
  - intros line Hin Hq. apply list_elem_of_In in Hin. simpl in Hin.
    destruct Hin as [<-|[<-|[]]]; vm_compute in Hq;
      apply list_elem_of_In in Hq; simpl in Hq;
      destruct Hq as [Hq|[Hq|[Hq|[]]]]; discriminate Hq.
  - intros line Hin. apply list_elem_of_In in Hin. simpl in Hin.
    destruct Hin as [<-|[<-|[]]]; vm_compute; discriminate.
  - exists events. exact Hrun.
Defined.

Lemma loop_status_zero {V} (svc : Services V) (cag : CAGSystem.t V)
    (inputs : list str) :
  forall events,
    Cli.loop svc cag inputs = (events, Ok 0) ->
    last events = Some Cli.Goodbye
    /\ exists line,
         line ∈ inputs
         /\ Cli.lower (Cli.strip line) ∈ [lit "quit"; lit "exit"; lit "q"].
Proof.
  induction inputs as [|line rest IH]; intros events Hrun; [done|].
  cbn [Cli.loop] in Hrun. cbv zeta in Hrun.
  case_bool_decide as Hquit.
  { injection Hrun as <-. split; [done|]. exists line.
    split; [apply elem_of_cons; by left|done]. }
  assert (Hrest : forall ev events',
            Cli.loop svc cag rest = (events', Ok 0) ->
            last (ev ++ events') = Some Cli.Goodbye
            /\ exists line0,
                 line0 ∈ line :: rest
                 /\ Cli.lower (Cli.strip line0)
                    ∈ [lit "quit"; lit "exit"; lit "q"]).
  { intros ev events' Hloop.
    destruct (IH events' Hloop) as (Hlast & l0 & Hl0 & Hq0).
    split; [by rewrite last_app, Hlast|].
    exists l0. split; [apply elem_of_cons; by right|done]. }
  case_bool_decide.
  { destruct (Cli.loop svc cag rest) as [events' status'] eqn:Hloop.
    injection Hrun as <- ->. by apply (Hrest [Cli.Help]). }
  case_bool_decide; [by apply (Hrest [])|].
  destruct (CAGSystem.process_query svc cag (Cli.strip line)) as [res|e|];
    [| |done].
  - destruct (Cli.loop svc cag rest) as [events' status'] eqn:Hloop.
    injection Hrun as <- ->. by apply (Hrest [_]).
  - destruct (Cli.loop svc cag rest) as [events' status'] eqn:Hloop.
    injection Hrun as <- ->. by apply (Hrest [_]).
Qed.

(** X26: the program ends with status 0 only after a quit command: the
    API key was set and not empty, the constructor returned, some line of
    the input was [quit], [exit] or [q], and the farewell is the last
    thing printed. A missing key, a failed initialization and the end of
    the input all end with status 1. *)
Theorem cli_main_status_zero {V} (svc : Services V) (key : option str)
    (db : Chroma.Collection V) (inputs : list str) (events : list Cli.event) :
  Cli.main svc key db inputs = (events, Ok 0) ->
  (exists c k, key = Some (c :: k))
  /\ (exists cag, CAGSystem.__init__ svc (lit "BellaTerra") db = Ok cag)
  /\ last events = Some Cli.Goodbye
  /\ exists line,
       line ∈ inputs
       /\ Cli.lower (Cli.strip line) ∈ [lit "quit"; lit "exit"; lit "q"].
Proof.
  unfold Cli.main. destruct key as [[|c k]|]; [done| |done].
  destruct (CAGSystem.__init__ svc (lit "BellaTerra") db) as [cag| |];
    [|done..].
  destruct (Cli.loop svc cag inputs) as [events' status'] eqn:Hloop.
  intros [= <- ->].
  destruct (loop_status_zero svc cag inputs events' Hloop) as (Hlast & Hline).
  split; [by exists c, k|]. split; [by exists cag|]. split; [|done].
  change (Cli.Banner :: Cli.Initialized :: events')
    with ([Cli.Banner; Cli.Initialized] ++ events').
  by rewrite last_app, Hlast.
Qed.

Lemma cli_main_status_zero_witness :
  exists a,
    Cli.main demo_services (Some (lit "sk-test")) [] demo_inputs
    = ([Cli.Banner; Cli.Initialized; Cli.Processed demo_query a; Cli.Help;
        Cli.Goodbye], Ok 0)
    /\ exists line,
         line ∈ demo_inputs
         /\ Cli.lower (Cli.strip line) ∈ [lit "quit"; lit "exit"; lit "q"].
Proof.
  eexists.
  eassert (Hrun : Cli.main demo_services (Some (lit "sk-test")) [] demo_inputs
                  = (_, Ok 0)) by (vm_compute; reflexivity).
  split; [exact Hrun|].
  apply (cli_main_status_zero demo_services (Some (lit "sk-test")) []
           demo_inputs _ Hrun).
Defined.
